(** * Exoplanet workshop: the numerical kernel, embedded and verified

    The three activity modules of the workshop share four computations:
    the trapezoid transit model ([Kepler_Tool._transit_model]), phase
    folding ([fold_at_period] of [TRAPPISTMission] and of
    [TRAPPISTHabitable]), the fit-quality score computed inside
    [Kepler_Tool.interactive_fit] and the temperature score
    ([TRAPPISTHabitable._calculate_habitability_score]).

    Numbers.  A Python/NumPy float is modelled as an exact rational
    extended with NaN ([float64]); rounding, overflow, signed zeros and
    infinities are outside that model.  The square root and exponential
    of the fit score have no rational value, so that tail of the scorer
    lives in the reals ([rfloat]).  Where rounding decides what the code
    does, [Module Binary64] has the same expressions on IEEE 754 doubles:
    the remainder and the phase as NumPy computes them, and the step
    that selects samples by their computed phase.  The theorems on the
    detection windows, the planet lookup and the dashboard labels state
    each end of a window with a margin of 1e-9 on either side, which the
    rounding of the operations and of the decimal literals does not
    reach.

    Arrays.  A one-dimensional NumPy array is a list.  The value-level
    modules ([Kepler], [Detective], [Habitable]) take and return lists;
    [Module Ref] keeps arrays in a store, so that allocation, in-place
    writes and aliasing are visible.

    Plotting, printing and file access are left out, except that the
    plot calls of [update_fit] check the sizes of their arrays. *)

From Stdlib Require Import QArith Qround Qabs Qreals Reals ZArith Psatz.
From Stdlib Require Floats.
From stdpp Require Import base option list strings gmap.

Set Default Proof Using "Type".

(** * Part I: definitions *)

(** ** Rationals *)

Section QDefs.
Local Open Scope Q_scope.

(** Strict comparison on rationals, as a boolean. *)
Definition Qltb (a b : Q) : bool := negb (Qle_bool b a).

(** Floored remainder, the meaning of [%] on Python and NumPy floats:
    the result takes the sign of the divisor. *)
Definition Qmod (a b : Q) : Q := a - b * inject_Z (Qfloor (a / b)).
End QDefs.

(** ** Floats *)

(** A float: a finite value or NaN. *)
Inductive float64 : Type :=
  | Fin (q : Q)
  | NaN.

(** A float that came out of [sqrt] or [exp]: a real number or NaN. *)
Inductive rfloat : Type :=
  | RFin (r : R)
  | RNaN.

Section FloatDefs.
Local Open Scope Q_scope.

Definition lift2 (f : Q -> Q -> Q) (x y : float64) : float64 :=
  match x, y with
  | Fin a, Fin b => Fin (f a b)
  | _, _ => NaN
  end.

Definition fadd : float64 -> float64 -> float64 := lift2 Qplus.
Definition fsub : float64 -> float64 -> float64 := lift2 Qminus.
Definition fmul : float64 -> float64 -> float64 := lift2 Qmult.

(** [x ** 2]. *)
Definition fsq (x : float64) : float64 := fmul x x.

(** NumPy division.  [0/0] is NaN.  A nonzero value over zero is an
    infinity in IEEE 754, which [float64] does not represent; NaN stands
    for it here.  The kernel divides by the period (where the dividend
    is already NaN when the period is zero), by the number of samples
    (where the dividend is the empty sum) and by the ingress width
    (never zero where it is used, see [edges_need_positive_duration]). *)
Definition fdiv (x y : float64) : float64 :=
  match x, y with
  | Fin a, Fin b => if Qeq_bool b 0 then NaN else Fin (a / b)
  | _, _ => NaN
  end.

(** NumPy [%]: the floored remainder, NaN when the divisor is zero. *)
Definition fmod (x y : float64) : float64 :=
  match x, y with
  | Fin a, Fin b => if Qeq_bool b 0 then NaN else Fin (Qmod a b)
  | _, _ => NaN
  end.

Definition fabs (x : float64) : float64 :=
  match x with
  | Fin a => Fin (Qabs a)
  | NaN => NaN
  end.

(** [<]: every comparison with NaN is false. *)
Definition flt (x y : float64) : bool :=
  match x, y with
  | Fin a, Fin b => Qltb a b
  | _, _ => false
  end.

(** Equality of floats as numbers: rationals up to [==]. *)
Definition feq (x y : float64) : Prop :=
  match x, y with
  | Fin a, Fin b => a == b
  | NaN, NaN => True
  | _, _ => False
  end.

(** A finite value within closed bounds. *)
Definition within (lo hi : Q) (x : float64) : Prop :=
  match x with
  | Fin a => lo <= a /\ a <= hi
  | NaN => False
  end.

(** A finite value in the half-open unit interval. *)
Definition unit_phase (x : float64) : Prop :=
  match x with
  | Fin a => 0 <= a /\ a < 1
  | NaN => False
  end.
End FloatDefs.

Section RFloatDefs.
Local Open Scope R_scope.

Definition rlift (f : R -> R) (x : rfloat) : rfloat :=
  match x with
  | RFin r => RFin (f r)
  | RNaN => RNaN
  end.

(** [np.sqrt]: NaN on a negative argument and on NaN. *)
Definition np_sqrt (x : float64) : rfloat :=
  match x with
  | Fin q => if Qle_bool 0 q then RFin (sqrt (Q2R q)) else RNaN
  | NaN => RNaN
  end.

(** [np.clip(x, lo, hi)] is [minimum(maximum(x, lo), hi)]; NaN stays NaN. *)
Definition np_clip (x : rfloat) (lo hi : R) : rfloat :=
  rlift (fun r => Rmin (Rmax r lo) hi) x.

(** The score as a function of the root-mean-square error:
    [clamp(100 * exp(-rmsError * 1000), 0, 100)]. *)
Definition score_of_rms (e : R) : R := Rmin (Rmax (100 * exp (- e * 1000)) 0) 100.

(** Order on results, defined between finite values only. *)
Definition rfloat_le (x y : rfloat) : Prop :=
  match x, y with
  | RFin a, RFin b => a <= b
  | _, _ => False
  end.
End RFloatDefs.

(** ** Exceptions *)

Inductive exn : Type :=
  | ValueError    (* NumPy: operands could not be broadcast together *)
  | BadReference. (* a reference to no object; Python cannot produce one *)

(** What a call does: it returns a value or raises. *)
Inductive outcome (A : Type) : Type :=
  | Returned (a : A)
  | Raised (e : exn).
Arguments Returned {A} a.
Arguments Raised {A} e.

#[global] Instance outcome_ret : MRet outcome := fun A a => Returned a.
#[global] Instance outcome_bind : MBind outcome := fun A B f m =>
  match m with
  | Returned a => f a
  | Raised e => Raised e
  end.

Definition raises {A} (m : outcome A) : Prop := exists e, m = Raised e.

(** ** NumPy arrays as lists *)

Section ArrayDefs.
Definition np_ones_like (a : list float64) : list float64 :=
  (fun _ => Fin 1) <$> a.

Definition np_any (m : list bool) : bool := existsb (fun b => b) m.

Definition count_true (m : list bool) : nat :=
  length (List.filter (fun b => b) m).

(** [a[m]]: the entries of [a] where the mask is set. *)
Fixpoint mask_select (a : list float64) (m : list bool) : list float64 :=
  match a, m with
  | x :: a', b :: m' =>
      if (b : bool) then x :: mask_select a' m' else mask_select a' m'
  | _, _ => []
  end.

(** [a[m] = v] for a scalar [v].  Mask and array have the same length
    wherever the kernel uses this (NumPy raises IndexError otherwise). *)
Definition mask_fill (a : list float64) (m : list bool) (v : float64)
  : list float64 :=
  zip_with (fun x (b : bool) => if b then v else x) a m.

(** The values [vs] written, in order, where the mask is set. *)
Fixpoint mask_scatter (a : list float64) (m : list bool) (vs : list float64)
  : list float64 :=
  match a, m with
  | x :: a', b :: m' =>
      if (b : bool) then
        match vs with
        | v :: vs' => v :: mask_scatter a' m' vs'
        | [] => x :: mask_scatter a' m' []
        end
      else x :: mask_scatter a' m' vs
  | _, _ => a
  end.

(** [a[m] = vs] for an array [vs]: one value per set entry of the mask,
    or a single value for all of them; anything else is a ValueError. *)
Definition mask_assign (a : list float64) (m : list bool) (vs : list float64)
  : outcome (list float64) :=
  if decide (length vs = count_true m) then Returned (mask_scatter a m vs)
  else match vs with
       | [v] => Returned (mask_fill a m v)
       | _ => Raised ValueError
       end.

(** [a - b] on one-dimensional arrays: elementwise on equal lengths, an
    operand of length one is broadcast, any other pair of lengths is a
    ValueError. *)
Definition np_sub (a b : list float64) : outcome (list float64) :=
  if decide (length a = length b) then Returned (zip_with fsub a b)
  else match a, b with
       | [x], _ => Returned (fsub x <$> b)
       | _, [y] => Returned ((fun x => fsub x y) <$> a)
       | _, _ => Raised ValueError
       end.

(** [np.mean]: the sum over the count; NaN (0/0) on an empty array. *)
Definition np_mean (a : list float64) : float64 :=
  fdiv (foldr fadd (Fin 0) a) (Fin (inject_Z (Z.of_nat (length a)))).

(** [(time % period) / period], the expression all three activities
    fold with. *)
Definition phase_fold (time : list float64) (period : Q) : list float64 :=
  (fun x => fdiv x (Fin period)) <$> ((fun t => fmod t (Fin period)) <$> time).

(** One sample of it. *)
Definition phase_at (period : Q) (t : float64) : float64 :=
  fdiv (fmod t (Fin period)) (Fin period).
End ArrayDefs.

(** ** Activity 1: kepler22_lab.py *)

Module Kepler.
Local Open Scope Q_scope.

(** [Kepler_Tool._transit_model(self, time, planet_size, orbital_period,
    impact_parameter)].  [time] is an array of floats, as [np.loadtxt]
    gives it; the three parameters are Python scalars. *)
Definition _transit_model (time : list float64)
    (planet_size orbital_period impact_parameter : Q)
  : outcome (list float64) :=
  let phase := phase_fold time orbital_period in
  let center := 0.5 in
  let transit_depth := planet_size ^ 2 in
  let transit_duration := 0.1 * (impact_parameter / 10) in
  let flux := np_ones_like time in
  let distance_from_center := fabs <$> ((fun p => fsub p (Fin center)) <$> phase) in
  let in_transit :=
    (fun d => flt d (Fin transit_duration)) <$> distance_from_center in
  if np_any in_transit then
    let mid_transit :=
      (fun d => flt d (Fin (transit_duration * 0.6))) <$> distance_from_center in
    let flux := mask_fill flux mid_transit (Fin (1 - transit_depth)) in
    let edges := zip_with andb in_transit (negb <$> mid_transit) in
    if np_any edges then
      let edge_distance :=
        (fun d => fdiv (fsub d (Fin (transit_duration * 0.6)))
                       (Fin (transit_duration * 0.4)))
          <$> mask_select distance_from_center edges in
      mask_assign flux edges
        ((fun e => fsub (Fin 1) (fmul (Fin transit_depth) (fsub (Fin 1) (fsq e))))
           <$> edge_distance)
    else Returned flux
  else Returned flux.

(** What [update_fit] reports about the fit. *)
Record FitResult : Type := {
  rms_error : rfloat;
  score : rfloat;
}.

(** The fit-quality block of [update_fit]:
    residuals, their root mean square, the exponential score and its
    clip to [0, 100]. *)
Definition fit_quality (flux model_flux : list float64) : outcome FitResult :=
  residuals ← np_sub flux model_flux;
  let rms_error := np_sqrt (np_mean (fsq <$> residuals)) in
  let base_score := rlift (fun e => 100 * exp (- e * 1000))%R rms_error in
  let score := np_clip base_score 0 100 in
  Returned {| rms_error := rms_error; score := score |}.

(** [update_fit(planet_size, orbital_period, orbital_speed)], the slider
    callback of [interactive_fit(self, time, flux)], up to the score. *)
Definition update_fit (time flux : list float64)
    (planet_size orbital_period orbital_speed : Q) : outcome FitResult :=
  model_flux ← _transit_model time planet_size orbital_period orbital_speed;
  fit_quality flux model_flux.
End Kepler.

(** The transit model as the specification words it, one sample at a
    time: flat bottom, quadratic taper, baseline. *)
Section SampleModel.
Local Open Scope Q_scope.

Definition sample_distance (period : Q) (t : float64) : float64 :=
  fabs (fsub (fdiv (fmod t (Fin period)) (Fin period)) (Fin 0.5)).

Definition taper (depth halfDuration : Q) (distance : float64) : float64 :=
  let edgeFraction :=
    fdiv (fsub distance (Fin (halfDuration * 0.6))) (Fin (halfDuration * 0.4)) in
  fsub (Fin 1) (fmul (Fin depth) (fsub (Fin 1) (fsq edgeFraction))).

(** Flux at a given distance from mid-transit: flat bottom below
    [0.6 * halfDuration], taper up to [halfDuration], baseline beyond. *)
Definition flux_at (depth halfDuration : Q) (distance : float64) : float64 :=
  if flt distance (Fin (halfDuration * 0.6)) then Fin (1 - depth)
  else if flt distance (Fin halfDuration) then taper depth halfDuration distance
  else Fin 1.

Definition sample_flux (radiusRatio period widthFactor : Q) (t : float64)
  : float64 :=
  let depth := radiusRatio ^ 2 in
  let halfDuration := 0.1 * (widthFactor / 10) in
  flux_at depth halfDuration (sample_distance period t).
End SampleModel.

(** ** Activity 2: trappist_detective.py *)

Module Detective.
(** The two data fields of a [TRAPPISTMission]; [None] until
    [load_data] succeeds. *)
Record mission : Type := {
  time : option (list float64);
  flux : option (list float64);
}.

(** [TRAPPISTMission.fold_at_period(self, period)]: Python's [None]
    when no data is loaded, the phase array otherwise. *)
Definition fold_at_period (self : mission) (period : Q)
  : option (list float64) :=
  match time self, flux self with
  | Some t, Some _ => Some (phase_fold t period)
  | _, _ => None
  end.
End Detective.

(** ** Activity 3: trappist_habitable.py *)

Module Habitable.
Local Open Scope Q_scope.

Record mission : Type := {
  time : option (list float64);
  flux : option (list float64);
}.

(** [TRAPPISTHabitable._has_data(self)]. *)
Definition _has_data (self : mission) : bool :=
  match time self, flux self with
  | Some t, Some f =>
      if (length t =? 0)%nat || (length f =? 0)%nat then false else true
  | _, _ => false
  end.

(** [TRAPPISTHabitable.fold_at_period(self, period)].  The method
    returns nothing; this is the phase array it hands to the plot, and
    [None] when [_has_data] fails and nothing is folded. *)
Definition fold_at_period (self : mission) (period : Q)
  : option (list float64) :=
  if _has_data self then
    t ← time self; Some (phase_fold t period)
  else None.

(** Python's two-argument [min] and [max]: the first argument is kept
    unless the second is strictly smaller (larger). *)
Definition py_min (a b : Q) : Q := if Qltb b a then b else a.
Definition py_max (a b : Q) : Q := if Qltb a b then b else a.

(** [TRAPPISTHabitable._calculate_habitability_score(self, temp)]. *)
Definition _calculate_habitability_score (temp : Q) : Q :=
  let score :=
    if Qle_bool (-20) temp && Qle_bool temp 50 then
      1.0 - Qabs (temp - 15) / 65
    else if Qle_bool (-50) temp && Qltb temp (-20) then
      0.6 - (Qabs temp - 20) / 150
    else
      0.3
  in
  py_max 0.3 (py_min 1.0 score).
End Habitable.

(** ** Double precision *)

(** The folding expression and step 3 of Activity 2 on IEEE 754 binary64
    values, with the rounding NumPy performs. *)
Module Binary64.
Import PrimFloat SpecFloat FloatOps.
Local Open Scope float_scope.
Local Set Warnings "-inexact-float".

Definition double : Type := float.

(** C's [fmod(a, b)]: the remainder of the truncated division, with the
    sign of [a]; it is computed without rounding.  NaN when [a] is
    infinite or [b] is zero, [a] itself when [b] is infinite. *)
Definition c_fmod (a b : double) : double :=
  match Prim2SF a, Prim2SF b with
  | S754_finite sa ma ea, S754_finite _ mb eb =>
      let e := Z.min ea eb in
      let r := ((Z.pos ma * 2 ^ (ea - e)) mod (Z.pos mb * 2 ^ (eb - e)))%Z in
      SF2Prim (binary_normalize prec emax (if sa then - r else r)%Z e sa)
  | S754_finite _ _ _, S754_infinity _ => a
  | S754_zero _, S754_finite _ _ _ => a
  | S754_zero _, S754_infinity _ => a
  | _, _ => nan
  end.

(** NumPy [%] on doubles ([npy_remainder]): [fmod], then the divisor is
    added when the signs differ, and that addition rounds; a zero result
    takes the sign of the divisor. *)
Definition np_remainder (a b : double) : double :=
  let modulus := c_fmod a b in
  if b =? 0 then modulus
  else if negb (modulus =? 0) then
    if xorb (b <? 0) (modulus <? 0) then modulus + b else modulus
  else if get_sign b then neg_zero else zero.

(** [(time % period) / period]. *)
Definition phase_fold (time : list double) (period : double) : list double :=
  (fun m => m / period) <$> ((fun t => np_remainder t period) <$> time).

(** One sample of it. *)
Definition phase_at (period t : double) : double :=
  np_remainder t period / period.

Record mission : Type := {
  time : option (list double);
  flux : option (list double);
}.

(** [TRAPPISTMission.fold_at_period(self, period)]. *)
Definition fold_at_period (self : mission) (period : double)
  : option (list double) :=
  match time self, flux self with
  | Some t, Some _ => Some (phase_fold t period)
  | _, _ => None
  end.

(** [a[m]] on an array of doubles. *)
Fixpoint mask_select (a : list double) (m : list bool) : list double :=
  match a, m with
  | x :: a', b :: m' =>
      if (b : bool) then x :: mask_select a' m' else mask_select a' m'
  | _, _ => []
  end.

(** What [step3_remove_planet] does. *)
Inductive step3_outcome : Type :=
  | NoData
  | Highlighted (time flux : list double) (found : nat)
  | SizeMismatch.

(** [TRAPPISTMission.step3_remove_planet(self)]: the samples it draws
    in red and the number it reports.  Arrays of different length make
    the scatter plot, and the boolean index into [self.flux], raise. *)
Definition step3_remove_planet (self : mission) : step3_outcome :=
  match time self, flux self with
  | Some t, Some f =>
      let phase := phase_fold t 1.51 in
      let transit_mask :=
        zip_with andb ((fun p => 0.45 <? p) <$> phase)
                      ((fun p => p <? 0.55) <$> phase) in
      if decide (length t = length f) then
        Highlighted (mask_select t transit_mask) (mask_select f transit_mask)
                    (count_true transit_mask)
      else SizeMismatch
  | _, _ => NoData
  end.
End Binary64.

(** ** Arrays as objects in a store *)

Module Ref.
Local Open Scope Q_scope.

Definition loc : Type := positive.

(** A computation over the store of arrays that may raise. *)
Definition py (A : Type) : Type :=
  gmap loc (list float64) -> outcome (A * gmap loc (list float64)).

#[global] Instance py_ret : MRet py := fun A a σ => Returned (a, σ).
#[global] Instance py_bind : MBind py := fun A B f m σ =>
  match m σ with
  | Returned (a, σ') => f a σ'
  | Raised e => Raised e
  end.

(** A new array object. *)
Definition alloc (a : list float64) : py loc := fun σ =>
  let l := fresh (dom σ) in Returned (l, <[l := a]> σ).

Definition load (l : loc) : py (list float64) := fun σ =>
  match σ !! l with
  | Some a => Returned (a, σ)
  | None => Raised BadReference
  end.

Definition store (l : loc) (a : list float64) : py unit := fun σ =>
  Returned ((), <[l := a]> σ).

Definition lift {A} (m : outcome A) : py A := fun σ =>
  match m with
  | Returned a => Returned (a, σ)
  | Raised e => Raised e
  end.

(** [obj[m] = v], in place. *)
Definition setitem_scalar (obj : loc) (m : list bool) (v : float64) : py unit :=
  a ← load obj; store obj (mask_fill a m v).

(** [obj[m] = vs], in place. *)
Definition setitem (obj : loc) (m : list bool) (vs : list float64) : py unit :=
  a ← load obj; a' ← lift (mask_assign a m vs); store obj a'.

(** [Kepler_Tool._transit_model] on a reference to the time array.
    Operators build new arrays, which nothing writes to afterwards, so
    they stay values; [flux] is allocated and written in place. *)
Definition _transit_model (time : loc)
    (planet_size orbital_period impact_parameter : Q) : py loc :=
  t ← load time;
  let phase := phase_fold t orbital_period in
  let center := 0.5 in
  let transit_depth := planet_size ^ 2 in
  let transit_duration := 0.1 * (impact_parameter / 10) in
  flux ← alloc (np_ones_like t);
  let distance_from_center := fabs <$> ((fun p => fsub p (Fin center)) <$> phase) in
  let in_transit :=
    (fun d => flt d (Fin transit_duration)) <$> distance_from_center in
  if np_any in_transit then
    let mid_transit :=
      (fun d => flt d (Fin (transit_duration * 0.6))) <$> distance_from_center in
    _ ← setitem_scalar flux mid_transit (Fin (1 - transit_depth));
    let edges := zip_with andb in_transit (negb <$> mid_transit) in
    if np_any edges then
      let edge_distance :=
        (fun d => fdiv (fsub d (Fin (transit_duration * 0.6)))
                       (Fin (transit_duration * 0.4)))
          <$> mask_select distance_from_center edges in
      _ ← setitem flux edges
            ((fun e => fsub (Fin 1) (fmul (Fin transit_depth) (fsub (Fin 1) (fsq e))))
               <$> edge_distance);
      mret flux
    else mret flux
  else mret flux.

(** A [TRAPPISTMission] whose fields refer to array objects. *)
Record mission : Type := {
  time : option loc;
  flux : option loc;
}.

(** [TRAPPISTMission.fold_at_period]: the phase array is a new object. *)
Definition fold_at_period (self : mission) (period : Q) : py (option loc) :=
  match time self, flux self with
  | Some tl, Some _ =>
      t ← load tl;
      phase ← alloc (phase_fold t period);
      mret (Some phase)
  | _, _ => mret None
  end.
End Ref.

(** ** Activity 1: the real-time analysis of [update_fit] *)

Module Analysis.
Import Kepler.
Local Open Scope Q_scope.

(** The three texts of the planet classification. *)
Record size_report : Type := {
  size_class : string;
  planet_type : string;
  likely_composition : string;
}.

(** [# 3. Planet classification]: the chain on [planet_size]. *)
Definition classify_size (planet_size : Q) : size_report :=
  if Qltb planet_size 0.04 then
    {| size_class := "Earth-sized";
       planet_type := "Rocky World";
       likely_composition := "Rock/iron like Earth" |}
  else if Qltb planet_size 0.085 then
    {| size_class := "Super-Earth";
       planet_type := "Large Rocky";
       likely_composition := "Rock with thick atmosphere" |}
  else if Qltb planet_size 0.1 then
    {| size_class := "Neptune-sized";
       planet_type := "Ice Giant";
       likely_composition := "Hydrogen/helium with icy core" |}
  else
    {| size_class := "Jupiter-sized";
       planet_type := "Gas Giant";
       likely_composition := "Mostly hydrogen/helium" |}.

Record temperature_report : Type := {
  temp_class : string;
  est_temp : string;
  habitable : string;
}.

(** [# 4. Temperature estimation]: the chain on [orbital_period]. *)
Definition classify_temperature (orbital_period : Q) : temperature_report :=
  if Qltb orbital_period 200 then
    {| temp_class := "VERY HOT";
       est_temp := "700-1000°C";
       habitable := "Not habitable" |}
  else if Qltb orbital_period 250 then
    {| temp_class := "WARM";
       est_temp := "100-300°C";
       habitable := "Too hot for life" |}
  else if Qltb orbital_period 300 then
    {| temp_class := "EARTH-LIKE";
       est_temp := "0-100°C";
       habitable := "Possibly habitable!" |}
  else
    {| temp_class := "COLD";
       est_temp := "-100 to 0°C";
       habitable := "Maybe with greenhouse" |}.

(** [x > c] and [x < c] on a float against a constant: false on NaN. *)
Definition rgt (x : rfloat) (c : R) : bool :=
  match x with
  | RFin r => if Rlt_dec c r then true else false
  | RNaN => false
  end.

Definition rlt (x : rfloat) (c : R) : bool :=
  match x with
  | RFin r => if Rlt_dec r c then true else false
  | RNaN => false
  end.

Record feedback_report : Type := {
  feedback : string;
  context : string;
}.

(** [# Score-based feedback]: the chain on [score]. *)
Definition score_feedback (score : rfloat) : feedback_report :=
  if rgt score 50 then
    {| feedback := "EXCELLENT FIT! Matches Kepler-22b data well!";
       context := "You've found an Earth-sized world in the habitable zone!" |}
  else if rgt score 40 then
    {| feedback := "GOOD FIT! Close to the real parameters.";
       context := "This could be a super-Earth or mini-Neptune." |}
  else if rgt score 35 then
    {| feedback := "DECENT FIT. Keep adjusting!";
       context := "Look for a deeper dip with the right spacing." |}
  else
    {| feedback := "KEEP TRYING! Adjust sliders carefully.";
       context := "Check period spacing and transit depth." |}.

(** Python's [int] on a float: truncation towards zero; a ValueError on
    NaN. *)
Definition py_int (x : rfloat) : outcome Z :=
  match x with
  | RFin r =>
      Returned (if Rle_dec 0 r then Int_part r else (- Int_part (- r))%Z)
  | RNaN => Raised ValueError
  end.

(** [s * n] on a string: [n] copies, none when [n] is not positive. *)
Definition str_mul (s : string) (n : Z) : string :=
  Nat.iter (Z.to_nat n) (String.append s) "".

(** [# Simple progress bar]: the text between the brackets. *)
Definition progress_bar (score : rfloat) : outcome string :=
  let bar_length := 20%Z in
  filled ← py_int (rlift (fun s => 20 * s / 100)%R score);
  Returned (str_mul "#" filled +:+ str_mul "-" (bar_length - filled)).

(** [# Hints if score is low]: the lines printed, without their leading
    line break and indentation. *)
Definition hints (fit : FitResult) (planet_size : Q) : list string :=
  if rlt (score fit) 50 then
    ["HINTS:"]
    ++ (if rgt (rms_error fit) 0.001 then
          ["• Try adjusting the PERIOD slider";
           "• Look for repeating pattern every ~290 days"]
        else [])
    ++ (if Qltb planet_size 0.04 then
          ["• The transit dip should be DEEPER";
           "• Increase planet size"]
        else [])
    ++ ["• Try: Period = 290, Size > 0.05, Speed = 0.5 - 1.5"]
  else [].

(** What one run of the slider callback shows. *)
Record analysis : Type := {
  fit : FitResult;
  size : size_report;
  temperature : temperature_report;
  advice : feedback_report;
  bar : string;
  hint_lines : list string;
}.

(** [ax.scatter(x, y)] and [ax.plot(x, y)]: nothing of the drawing is
    kept, but both check their arguments, and two arrays of different
    sizes are a ValueError. *)
Definition ax_scatter (x y : list float64) : outcome unit :=
  if decide (length x = length y) then Returned () else Raised ValueError.

Definition ax_plot (x y : list float64) : outcome unit :=
  if decide (length x = length y) then Returned () else Raised ValueError.

(** [update_fit] in full: the model, the fit, the classifications, the
    three plot calls that take arrays, the feedback, then the console
    output with its progress bar. *)
Definition update_fit_console (time flux : list float64)
    (planet_size orbital_period orbital_speed : Q) : outcome analysis :=
  model_flux ← _transit_model time planet_size orbital_period orbital_speed;
  residuals ← np_sub flux model_flux;
  r ← fit_quality flux model_flux;
  _ ← ax_scatter time flux;
  _ ← ax_plot time model_flux;
  _ ← ax_scatter time residuals;
  b ← progress_bar (score r);
  Returned {| fit := r;
              size := classify_size planet_size;
              temperature := classify_temperature orbital_period;
              advice := score_feedback (score r);
              bar := b;
              hint_lines := hints r planet_size |}.
End Analysis.

(** ** Activity 2: the verdict of [fold_at_period] *)

Module DetectiveTools.
Import Detective.
Local Open Scope Q_scope.

(** [# Check if this period is close to known planets]: the legend label
    of the branch taken. *)
Definition transit_label (period : Q) : string :=
  if Qltb (Qabs (period - 1.51)) 0.05 then "TRAPPIST-1b transit!"
  else if Qltb (Qabs (period - 2.42)) 0.05 then "TRAPPIST-1c transit!"
  else "Expected transit location".

(** [# Give hints if they're close]: the hint printed, if any. *)
Definition hint (period : Q) : option string :=
  if Qltb 1.4 period && Qltb period 1.6
     && Qle_bool 0.05 (Qabs (period - 1.51)) then
    Some "💡 Hint: You're close! Try adjusting slightly..."
  else if Qltb 2.3 period && Qltb period 2.5
          && Qle_bool 0.05 (Qabs (period - 2.42)) then
    Some "💡 Hint: Getting warm! Fine-tune your period..."
  else None.

End DetectiveTools.

(** ** Activity 3: the planet table, its lookups and the labels *)

Module HabitableTools.
Import Habitable.
Local Open Scope Q_scope.

(** One entry of [self.all_planets]. *)
Record planet : Type := {
  period : Q;
  type : string;
  temp_c : Q;
  emoji : option string;
}.

(** [self.all_planets], in insertion order. *)
Definition all_planets : list (string * planet) :=
  [ ("b", {| period := 1.51; type := "hot"; temp_c := 127; emoji := None |});
    ("c", {| period := 2.42; type := "hot"; temp_c := 73; emoji := None |});
    ("d", {| period := 4.05; type := "habitable"; temp_c := 15;
             emoji := Some "🌍" |});
    ("e", {| period := 6.10; type := "habitable"; temp_c := -22;
             emoji := Some "❄️" |});
    ("f", {| period := 9.21; type := "habitable"; temp_c := -54;
             emoji := Some "🧊" |});
    ("g", {| period := 12.35; type := "cold"; temp_c := -98; emoji := None |});
    ("h", {| period := 18.77; type := "cold"; temp_c := -123; emoji := None |}) ].

(** [self.habitable_planets]. *)
Definition habitable_planets : list (string * planet) :=
  List.filter (fun kv => String.eqb (type (snd kv)) "habitable") all_planets.

(** The loop with [break] of [fold_at_period] and
    [find_habitable_periods]: the first planet of the table whose period
    is within [tol] of the one given. *)
Definition known_planet (tol p : Q) : option (string * planet) :=
  List.find (fun kv => Qltb (Qabs (period (snd kv) - p)) tol) all_planets.

(** [fold_at_period]: the planet it reports a match with, at 0.05 days. *)
Definition fold_match (p : Q) : option (string * planet) := known_planet 0.05 p.

(** [find_habitable_periods]: the text printed next to a period. *)
Definition period_source (p : Q) : string :=
  let all_periods := (fun kv => period (snd kv)) <$> all_planets in
  let source := if existsb (Qeq_bool p) all_periods then "" else "❌ Unknown" in
  match known_planet 0.01 p with
  | Some (name, data) => "✅ Planet " +:+ name +:+ " (" +:+ type data +:+ ")"
  | None => source
  end.

(** The banded score of [_calculate_habitability_score] before the
    clamp. *)
Definition band_score (temp : Q) : Q :=
  if Qle_bool (-20) temp && Qle_bool temp 50 then
    1.0 - Qabs (temp - 15) / 65
  else if Qle_bool (-50) temp && Qltb temp (-20) then
    0.6 - (Qabs temp - 20) / 150
  else
    0.3.

(** The label under a bar of [_create_habitability_dashboard]. *)
Definition dashboard_label (score : Q) : string :=
  if Qltb 0.8 score then "Excellent"
  else if Qltb 0.6 score then "Good"
  else "Possible".

(** The scores of [_create_habitability_dashboard] and
    [run_habitability_dashboard], one per habitable planet. *)
Definition dashboard_scores : list (string * Q) :=
  (fun kv => (fst kv, _calculate_habitability_score (temp_c (snd kv))))
    <$> habitable_planets.
End HabitableTools.

(** * Part II: lemmas and theorems *)

(** ** Rationals *)

Section QFacts.
Local Open Scope Q_scope.

Lemma Qltb_lt (a b : Q) : Qltb a b = true <-> a < b.
Proof.
  unfold Qltb. rewrite negb_true_iff.
  destruct (Qle_bool b a) eqn:E; split; intros H; try done.
  - apply Qle_bool_iff in E. exfalso. lra.
  - apply Qnot_le_lt. intros Hle. apply Qle_bool_iff in Hle. congruence.
Qed.

Lemma Qltb_ge (a b : Q) : Qltb a b = false <-> b <= a.
Proof.
  unfold Qltb. rewrite negb_false_iff. apply Qle_bool_iff.
Qed.

Lemma Qeq_bool_false (a b : Q) : ~ a == b -> Qeq_bool a b = false.
Proof.
  intros H. destruct (Qeq_bool a b) eqn:E; [|done].
  apply Qeq_bool_iff in E. contradiction.
Qed.

Lemma Qfloor_bounds (x : Q) :
  inject_Z (Qfloor x) <= x /\ x < inject_Z (Qfloor x) + 1.
Proof.
  split; [apply Qfloor_le|].
  pose proof (Qlt_floor x) as H. rewrite inject_Z_plus in H. exact H.
Qed.

Lemma Qfloor_unique (x : Q) (n : Z) :
  inject_Z n <= x -> x < inject_Z n + 1 -> Qfloor x = n.
Proof.
  intros Hlo Hhi. destruct (Qfloor_bounds x) as [Flo Fhi].
  assert (Hlt1 : inject_Z n < inject_Z (Qfloor x) + 1) by lra.
  assert (Hlt2 : inject_Z (Qfloor x) < inject_Z n + 1) by lra.
  change 1 with (inject_Z 1) in Hlt1, Hlt2.
  rewrite <- inject_Z_plus in Hlt1, Hlt2.
  rewrite <- Zlt_Qlt in Hlt1, Hlt2. lia.
Qed.

Lemma Qfloor_add_Z (x : Q) (k : Z) :
  Qfloor (x + inject_Z k) = (Qfloor x + k)%Z.
Proof.
  destruct (Qfloor_bounds x) as [Flo Fhi].
  apply Qfloor_unique; rewrite inject_Z_plus; lra.
Qed.

Lemma Qmod_pos_bounds (a b : Q) : 0 < b -> 0 <= Qmod a b /\ Qmod a b < b.
Proof.
  intros Hb. unfold Qmod.
  destruct (Qfloor_bounds (a / b)) as [Flo Fhi].
  set (n := inject_Z (Qfloor (a / b))) in *.
  assert (Ha : a == b * (a / b)) by (field; lra).
  split.
  - assert (b * n <= b * (a / b)) by (apply Qmult_le_l; lra). lra.
  - assert (b * (a / b) < b * (n + 1)) by (apply Qmult_lt_l; lra). lra.
Qed.

Lemma Qmod_neg_bounds (a b : Q) : b < 0 -> b < Qmod a b /\ Qmod a b <= 0.
Proof.
  intros Hb. unfold Qmod.
  destruct (Qfloor_bounds (a / b)) as [Flo Fhi].
  set (n := inject_Z (Qfloor (a / b))) in *.
  assert (Ha : a == b * (a / b)) by (field; lra).
  split; nra.
Qed.

Lemma Qmod_shift (a b : Q) (k : Z) :
  ~ b == 0 -> Qmod (a + inject_Z k * b) b == Qmod a b.
Proof.
  intros Hb. unfold Qmod.
  assert (E : (a + inject_Z k * b) / b == a / b + inject_Z k) by (field; exact Hb).
  rewrite (Qfloor_comp _ _ E), Qfloor_add_Z, inject_Z_plus. ring.
Qed.

(** A quotient of the floored remainder by its divisor is a phase. *)
Lemma Qmod_div_unit (a b : Q) :
  ~ b == 0 -> 0 <= Qmod a b / b /\ Qmod a b / b < 1.
Proof.
  intros Hb.
  assert (E : Qmod a b == b * (Qmod a b / b)) by (field; exact Hb).
  destruct (Qlt_le_dec 0 b) as [Hpos|Hneg].
  - destruct (Qmod_pos_bounds a b Hpos) as [Hlo Hhi].
    split.
    + apply Qle_shift_div_l; lra.
    + apply Qlt_shift_div_r; lra.
  - assert (Hlt : b < 0).
    { destruct (Qlt_le_dec b 0) as [|Hge]; [done|].
      exfalso. apply Hb. lra. }
    destruct (Qmod_neg_bounds a b Hlt) as [Hlo Hhi].
    set (m := Qmod a b) in *. set (q := m / b) in *.
    split; nra.
Qed.
End QFacts.

(** ** Arrays and masks *)

Section MaskFacts.
Context {A : Type}.
Implicit Types (l : list A) (p q : A -> bool) (f g : A -> float64).

Lemma np_any_fmap_true p l :
  np_any (p <$> l) = true <-> exists x, x ∈ l /\ p x = true.
Proof.
  unfold np_any. induction l as [|x l IH]; simpl.
  - split; [done|]. intros (x & Hx & _). by apply elem_of_nil in Hx.
  - rewrite orb_true_iff, IH. split.
    + intros [Hx|(y & Hy & Hp)].
      * exists x. split; [left|done].
      * exists y. split; [by right|done].
    + intros (y & Hy & Hp). apply elem_of_cons in Hy as [->|Hy]; [by left|].
      right. by exists y.
Qed.

Lemma np_any_fmap_false p l :
  np_any (p <$> l) = false <-> forall x, x ∈ l -> p x = false.
Proof.
  split.
  - intros Hany x Hx. destruct (p x) eqn:E; [|done].
    assert (np_any (p <$> l) = true) by (apply np_any_fmap_true; eauto).
    congruence.
  - intros Hall. destruct (np_any (p <$> l)) eqn:E; [|done].
    apply np_any_fmap_true in E as (x & Hx & Hp).
    rewrite (Hall x Hx) in Hp. done.
Qed.

Lemma mask_fill_fmap f p l v :
  mask_fill (f <$> l) (p <$> l) v = (fun x => if p x then v else f x) <$> l.
Proof.
  unfold mask_fill. induction l as [|x l IH]; [done|].
  cbn. f_equal. exact IH.
Qed.

Lemma edges_fmap p q l :
  zip_with andb (p <$> l) (negb <$> (q <$> l))
  = (fun x => p x && negb (q x)) <$> l.
Proof.
  induction l as [|x l IH]; [done|]. cbn. f_equal. exact IH.
Qed.

Lemma mask_select_fmap f p l :
  mask_select (f <$> l) (p <$> l) = f <$> List.filter p l.
Proof.
  induction l as [|x l IH]; [done|]. csimpl.
  destruct (p x); csimpl; by rewrite IH.
Qed.

Lemma mask_select_self (p : float64 -> bool) (ds : list float64) :
  mask_select ds (p <$> ds) = List.filter p ds.
Proof.
  induction ds as [|x ds IH]; [done|]. csimpl.
  destruct (p x); csimpl; by rewrite IH.
Qed.

Lemma count_true_fmap p l :
  count_true (p <$> l) = length (List.filter p l).
Proof.
  unfold count_true. induction l as [|x l IH]; [done|]. csimpl.
  destruct (p x); csimpl; by rewrite IH.
Qed.

Lemma mask_scatter_fmap f g p l :
  mask_scatter (f <$> l) (p <$> l) (g <$> List.filter p l)
  = (fun x => if p x then g x else f x) <$> l.
Proof.
  induction l as [|x l IH]; [done|]. csimpl.
  destruct (p x); csimpl; by rewrite IH.
Qed.

(** Writing back one value per selected entry never raises. *)
Lemma mask_assign_fmap f g p l :
  mask_assign (f <$> l) (p <$> l) (g <$> List.filter p l)
  = Returned ((fun x => if p x then g x else f x) <$> l).
Proof.
  unfold mask_assign.
  rewrite length_fmap, count_true_fmap, decide_True by done.
  by rewrite mask_scatter_fmap.
Qed.
End MaskFacts.

(** ** The transit model, sample by sample *)

Section TransitFacts.
Local Open Scope Q_scope.

Lemma fabs_nonneg (x : float64) (a : Q) : fabs x = Fin a -> 0 <= a.
Proof.
  destruct x as [b|]; simpl; [|done]. intros [= <-]. apply Qabs_nonneg.
Qed.

Lemma flt_true (x y : float64) :
  flt x y = true -> exists a b, x = Fin a /\ y = Fin b /\ a < b.
Proof.
  destruct x as [a|], y as [b|]; simpl; try done.
  intros H%Qltb_lt. eauto.
Qed.

(** The flat bottom is inside the transit window. *)
Lemma mid_in_transit (x : float64) (td : Q) :
  flt (fabs x) (Fin (td * 0.6)) = true -> flt (fabs x) (Fin td) = true.
Proof.
  intros (a & b & Ha & [= <-] & Hlt)%flt_true.
  pose proof (fabs_nonneg _ _ Ha) as Hnn.
  rewrite Ha. simpl. apply Qltb_lt. lra.
Qed.

(** The ingress/egress division is by a nonzero width: when some sample
    is inside the window the duration is positive. *)
Lemma edges_need_positive_duration (x : float64) (td : Q) :
  flt (fabs x) (Fin td) = true -> ~ td * 0.4 == 0.
Proof.
  intros (a & b & Ha & [= <-] & Hlt)%flt_true.
  pose proof (fabs_nonneg _ _ Ha) as Hnn. lra.
Qed.

(** The array code computes the per-sample model, for every argument,
    and never raises. *)
(** The array code computes the per-sample model, for every argument,
    and never raises. *)
Lemma transit_model_sample (time : list float64) (ps period ip : Q) :
  Kepler._transit_model time ps period ip
  = Returned (sample_flux ps period ip <$> time).
Proof.
  unfold Kepler._transit_model, phase_fold. cbv zeta.
  set (td := 0.1 * (ip / 10)). set (depth := ps ^ 2).
  assert (Hds : fabs <$> ((fun p => fsub p (Fin 0.5)) <$>
                ((fun x => fdiv x (Fin period)) <$>
                  ((fun t => fmod t (Fin period)) <$> time)))
                = sample_distance period <$> time).
  { by rewrite <- !list_fmap_compose. }
  assert (Hones : np_ones_like time
                  = (fun _ => Fin 1) <$> (sample_distance period <$> time)).
  { unfold np_ones_like. by rewrite <- list_fmap_compose. }
  rewrite Hds, Hones. clear Hds Hones.
  assert (Hgoal : sample_flux ps period ip <$> time
                  = flux_at depth td <$> (sample_distance period <$> time)).
  { by rewrite <- list_fmap_compose. }
  rewrite Hgoal. clear Hgoal.
  assert (Hmid : forall d, d ∈ sample_distance period <$> time ->
                   flt d (Fin (td * 0.6)) = true -> flt d (Fin td) = true).
  { intros d (t & -> & _)%list_elem_of_fmap. apply mid_in_transit. }
  generalize dependent (sample_distance period <$> time). intros ds Hmid.
  destruct (np_any ((fun d => flt d (Fin td)) <$> ds)) eqn:Hany.
  - rewrite mask_fill_fmap, edges_fmap.
    destruct (np_any ((fun x => flt x (Fin td) && negb (flt x (Fin (td * 0.6))))
                        <$> ds)) eqn:Hedges.
    + rewrite mask_select_self, <- !list_fmap_compose.
      rewrite (mask_assign_fmap
                 (fun x => if flt x (Fin (td * 0.6)) then Fin (1 - depth) else Fin 1)
                 (taper depth td)).
      f_equal. apply list_fmap_ext. intros i d Hd.
      apply list_elem_of_lookup_2 in Hd. unfold flux_at.
      destruct (flt d (Fin (td * 0.6))) eqn:E1.
      * by rewrite (Hmid d Hd E1).
      * by destruct (flt d (Fin td)).
    + f_equal. apply list_fmap_ext. intros i d Hd.
      apply list_elem_of_lookup_2 in Hd. unfold flux_at.
      destruct (flt d (Fin (td * 0.6))) eqn:E1; [done|].
      pose proof (proj1 (np_any_fmap_false _ _) Hedges d Hd) as He.
      simpl in He. rewrite E1, andb_true_r in He. by rewrite He.
  - f_equal. apply list_fmap_ext. intros i d Hd.
    apply list_elem_of_lookup_2 in Hd. unfold flux_at.
    pose proof (proj1 (np_any_fmap_false _ _) Hany d Hd) as Hin.
    simpl in Hin. rewrite Hin.
    destruct (flt d (Fin (td * 0.6))) eqn:E1; [|done].
    apply (Hmid d Hd) in E1. congruence.
Qed.
End TransitFacts.

Section TransitRange.
Local Open Scope Q_scope.

Lemma Qsquare (q : Q) : q ^ 2 = q * q.
Proof. reflexivity. Qed.

(** The normalised distance into the taper is in [0, 1). *)
Lemma edge_fraction_unit (a td : Q) :
  td * 0.6 <= a -> a < td ->
  0 <= (a - td * 0.6) / (td * 0.4) /\ (a - td * 0.6) / (td * 0.4) < 1.
Proof.
  intros Hlo Hhi. assert (0 < td * 0.4) by lra. split.
  - apply Qle_shift_div_l; lra.
  - apply Qlt_shift_div_r; lra.
Qed.

Lemma taper_value (depth td a : Q) :
  td * 0.6 <= a -> a < td ->
  exists e, e = (a - td * 0.6) / (td * 0.4) /\ 0 <= e /\ e < 1 /\
            taper depth td (Fin a) = Fin (1 - depth * (1 - e * e)).
Proof.
  intros Hlo Hhi. destruct (edge_fraction_unit a td Hlo Hhi) as [He0 He1].
  eexists. split; [reflexivity|]. split; [done|]. split; [done|].
  unfold taper. cbv zeta. simpl.
  rewrite Qeq_bool_false by lra. done.
Qed.

Lemma flux_at_within (depth td : Q) (d : float64) :
  0 <= depth -> within (1 - depth) 1 (flux_at depth td d).
Proof.
  intros Hdepth. unfold flux_at.
  destruct (flt d (Fin (td * 0.6))) eqn:Emid; [simpl; lra|].
  destruct (flt d (Fin td)) eqn:Ein; [|simpl; lra].
  apply flt_true in Ein as (a & b & -> & [= <-] & Hlt).
  simpl in Emid. apply Qltb_ge in Emid.
  destruct (taper_value depth td a Emid Hlt) as (e & _ & He0 & He1 & ->).
  assert (Hsq0 : 0 <= e * e) by nra.
  assert (Hsq1 : e * e <= 1) by (assert (e <= 1) by lra; nra).
  set (s := e * e) in *. simpl. split; nra.
Qed.

(** C1: for a radius ratio in (0,1), a positive period and a positive
    width factor, the transit model returns, for any time array, the
    per-sample model (1 - depth on the flat bottom, the quadratic taper
    on ingress and egress, 1 elsewhere), and every value lies in
    [1 - radiusRatio^2, 1], hence in [0, 1]. *)
Theorem transit_flux_in_range
    (time : list float64) (radiusRatio period widthFactor : Q) :
  0 < radiusRatio -> radiusRatio < 1 -> 0 < period -> 0 < widthFactor ->
  exists flux,
    Kepler._transit_model time radiusRatio period widthFactor = Returned flux /\
    flux = sample_flux radiusRatio period widthFactor <$> time /\
    Forall (within (1 - radiusRatio ^ 2) 1) flux /\
    Forall (within 0 1) flux.
Proof.
  intros Hr0 Hr1 _ _. eexists. split; [apply transit_model_sample|].
  split; [done|].
  assert (Hd : 0 <= radiusRatio ^ 2) by (rewrite Qsquare; nra).
  assert (Hd1 : radiusRatio ^ 2 <= 1) by (rewrite Qsquare; nra).
  assert (Hall : Forall (within (1 - radiusRatio ^ 2) 1)
                   (sample_flux radiusRatio period widthFactor <$> time)).
  { apply Forall_fmap, Forall_forall. intros t _.
    apply flux_at_within, Hd. }
  split; [exact Hall|].
  eapply Forall_impl; [exact Hall|].
  intros [a|]; simpl; [|done]. lra.
Qed.

Lemma transit_flux_in_range_witness :
  exists flux,
    Kepler._transit_model
      [Fin 0; Fin 2.025; Fin 1.7415; NaN] 0.1 4.05 10 = Returned flux /\
    flux = sample_flux 0.1 4.05 10 <$> [Fin 0; Fin 2.025; Fin 1.7415; NaN] /\
    Forall (within (1 - 0.1 ^ 2) 1) flux /\
    Forall (within 0 1) flux.
Proof.
  apply (transit_flux_in_range [Fin 0; Fin 2.025; Fin 1.7415; NaN] 0.1 4.05 10);
    reflexivity.
Defined.
End TransitRange.

(** ** Phase folding *)

Section FoldFacts.
Local Open Scope Q_scope.

Lemma phase_fold_fmap (time : list float64) (period : Q) :
  phase_fold time period = phase_at period <$> time.
Proof. unfold phase_fold. by rewrite <- list_fmap_compose. Qed.

Lemma phase_at_fin (period a : Q) :
  ~ period == 0 -> phase_at period (Fin a) = Fin (Qmod a period / period).
Proof.
  intros Hp. unfold phase_at. simpl.
  rewrite (Qeq_bool_false _ _ Hp). simpl. by rewrite (Qeq_bool_false _ _ Hp).
Qed.

Lemma phase_at_zero_period (period : Q) (t : float64) :
  period == 0 -> phase_at period t = NaN.
Proof.
  intros Hp%Qeq_bool_iff. unfold phase_at.
  destruct t as [a|]; simpl; [|done]. by rewrite Hp.
Qed.

Lemma phase_at_unit (period a : Q) :
  ~ period == 0 -> unit_phase (phase_at period (Fin a)).
Proof.
  intros Hp. rewrite (phase_at_fin _ _ Hp). simpl.
  by apply Qmod_div_unit.
Qed.

Lemma phase_at_shift (period a : Q) (k : Z) :
  ~ period == 0 ->
  feq (phase_at period (Fin (a + inject_Z k * period)))
      (phase_at period (Fin a)).
Proof.
  intros Hp. rewrite !phase_at_fin by done. simpl.
  by rewrite (Qmod_shift a period k Hp).
Qed.

Lemma feq_refl (x : float64) : feq x x.
Proof. destruct x; simpl; [reflexivity|done]. Qed.

Lemma Forall2_feq_refl (l : list float64) : Forall2 feq l l.
Proof. induction l; constructor; [apply feq_refl|done]. Qed.

Lemma fold_loaded_detective (t f : list float64) (period : Q) :
  Detective.fold_at_period
    {| Detective.time := Some t; Detective.flux := Some f |} period
  = Some (phase_fold t period).
Proof. reflexivity. Qed.

Lemma fold_loaded_habitable (t f : list float64) (period : Q) :
  t <> [] -> f <> [] ->
  Habitable.fold_at_period
    {| Habitable.time := Some t; Habitable.flux := Some f |} period
  = Some (phase_fold t period).
Proof. by destruct t, f. Qed.

Lemma phase_at_within (period a : Q) :
  ~ period == 0 -> within 0 1 (phase_at period (Fin a)).
Proof.
  intros Hp. pose proof (phase_at_unit period a Hp) as H.
  destruct (phase_at period (Fin a)) as [q|]; simpl in *; [|done].
  split; lra.
Qed.

(** C3, as the code has it: folding at a positive period is invariant
    under moving a sample by a whole number of periods, in both folding
    tools; the phase of sample [i] is [(times[i] mod period) / period],
    and every phase lies in the closed interval [0, 1].  The upper end
    is closed because the code reaches it: a small negative remainder
    plus the period rounds to the period. *)
Theorem fold_shift_invariant
    (times : list Q) (flux : list float64) (period : Q)
    (i : nat) (k : Z) (t : Q) :
  0 < period -> times !! i = Some t -> flux <> [] ->
  exists phase phase',
    Detective.fold_at_period
      {| Detective.time := Some (Fin <$> times);
         Detective.flux := Some flux |} period = Some phase /\
    Detective.fold_at_period
      {| Detective.time := Some (Fin <$> <[i := t + inject_Z k * period]> times);
         Detective.flux := Some flux |} period = Some phase' /\
    Habitable.fold_at_period
      {| Habitable.time := Some (Fin <$> times);
         Habitable.flux := Some flux |} period = Some phase /\
    Habitable.fold_at_period
      {| Habitable.time := Some (Fin <$> <[i := t + inject_Z k * period]> times);
         Habitable.flux := Some flux |} period = Some phase' /\
    phase !! i = Some (Fin (Qmod t period / period)) /\
    Forall2 feq phase' phase /\
    Forall (within 0 1) phase /\
    Forall (within 0 1) phase'.
Proof.
  intros Hpos Hi Hflux. assert (Hp : ~ period == 0) by lra.
  assert (Hne : forall l : list Q, l !! i <> None -> Fin <$> l <> []).
  { intros [|x l]; [by destruct i|done]. }
  assert (Hunit : forall l : list Q,
            Forall (within 0 1) (phase_fold (Fin <$> l) period)).
  { intros l. rewrite phase_fold_fmap, <- list_fmap_compose.
    apply Forall_fmap, Forall_forall. intros a _. by apply phase_at_within. }
  exists (phase_fold (Fin <$> times) period),
         (phase_fold (Fin <$> <[i := t + inject_Z k * period]> times) period).
  split; [apply fold_loaded_detective|].
  split; [apply fold_loaded_detective|].
  split. { apply fold_loaded_habitable; [|done]. apply Hne. by rewrite Hi. }
  split.
  { apply fold_loaded_habitable; [|done]. apply Hne.
    rewrite list_lookup_insert_eq; [done|]. by eapply lookup_lt_Some. }
  split.
  { rewrite phase_fold_fmap, !list_lookup_fmap, Hi. simpl.
    by rewrite phase_at_fin. }
  split; [|split; apply Hunit].
  rewrite !phase_fold_fmap, !list_fmap_insert.
  rewrite <- (list_insert_id (phase_at period <$> (Fin <$> times)) i
                (phase_at period (Fin t))) at 2
    by (by rewrite !list_lookup_fmap, Hi).
  apply Forall2_insert; [apply Forall2_feq_refl|].
  by apply phase_at_shift.
Qed.

Lemma fold_shift_invariant_witness :
  exists phase phase',
    Detective.fold_at_period
      {| Detective.time := Some (Fin <$> [0.5; 3; 7.25]);
         Detective.flux := Some [Fin 1; Fin 1; Fin 1] |} 2 = Some phase /\
    Detective.fold_at_period
      {| Detective.time :=
           Some (Fin <$> <[1%nat := 3 + inject_Z (-4) * 2]> [0.5; 3; 7.25]);
         Detective.flux := Some [Fin 1; Fin 1; Fin 1] |} 2 = Some phase' /\
    Habitable.fold_at_period
      {| Habitable.time := Some (Fin <$> [0.5; 3; 7.25]);
         Habitable.flux := Some [Fin 1; Fin 1; Fin 1] |} 2 = Some phase /\
    Habitable.fold_at_period
      {| Habitable.time :=
           Some (Fin <$> <[1%nat := 3 + inject_Z (-4) * 2]> [0.5; 3; 7.25]);
         Habitable.flux := Some [Fin 1; Fin 1; Fin 1] |} 2 = Some phase' /\
    phase !! 1%nat = Some (Fin (Qmod 3 2 / 2)) /\
    Forall2 feq phase' phase /\
    Forall (within 0 1) phase /\
    Forall (within 0 1) phase'.
Proof.
  apply (fold_shift_invariant [0.5; 3; 7.25] [Fin 1; Fin 1; Fin 1] 2 1 (-4) 3);
    [reflexivity | reflexivity | discriminate].
Defined.
End FoldFacts.

(** ** Phase folding in double precision *)

Section FoldRounding.
Import PrimFloat.
Local Open Scope float_scope.
Local Set Warnings "-inexact-float".

(** C3 fails as stated: a phase can be exactly 1.  The time
    [-2^-70] folded at period 1 has the remainder [-2^-70 + 1], which
    rounds to 1, and so has the time [0.3 - 0.1 - 0.2 = -2^-55] folded at
    1.51 days; neither phase is below 1. *)
Lemma rounded_phase_reaches_one :
  (0 <? 1) = true /\ (0 <? 1.51) = true /\
  Binary64.fold_at_period
    {| Binary64.time := Some [-0x1p-70]; Binary64.flux := Some [1] |} 1
  = Some [1] /\
  Binary64.fold_at_period
    {| Binary64.time := Some [0.3 - 0.1 - 0.2]; Binary64.flux := Some [1] |} 1.51
  = Some [1] /\
  (1 <? 1) = false.
Proof. repeat split; vm_compute; reflexivity. Qed.
End FoldRounding.

(** ** A period that is not positive *)

Section BadPeriod.
Local Open Scope Q_scope.

Lemma sample_flux_zero_period (ps period ip : Q) (t : float64) :
  period == 0 -> sample_flux ps period ip t = Fin 1.
Proof.
  intros Hp. unfold sample_flux, sample_distance. cbv zeta.
  fold (phase_at period t). by rewrite (phase_at_zero_period _ _ Hp).
Qed.

(** C2, as the code has it: a period that is not positive is not
    rejected.  The transit model and [fold_at_period] return normally;
    at period zero the remainder is NaN, so every phase is NaN and the
    model is the all-ones baseline; at a negative period the remainder
    takes the sign of the period and every finite time gets a phase in
    the closed interval [0, 1]. *)
Theorem nonpositive_period_not_rejected
    (time flux : list float64) (ps period ip : Q) :
  period <= 0 ->
  ~ raises (Kepler._transit_model time ps period ip) /\
  Detective.fold_at_period
    {| Detective.time := Some time; Detective.flux := Some flux |} period
  = Some (phase_fold time period) /\
  (period == 0 ->
     phase_fold time period = (fun _ => NaN) <$> time /\
     Kepler._transit_model time ps period ip = Returned (np_ones_like time)) /\
  (period < 0 ->
     Forall (fun x => x = NaN \/ within 0 1 x) (phase_fold time period)).
Proof.
  intros _. split.
  { rewrite transit_model_sample. intros [e He]. discriminate. }
  split; [apply fold_loaded_detective|]. split.
  - intros Hp. split.
    + rewrite phase_fold_fmap. apply list_fmap_ext. intros i t _.
      by apply phase_at_zero_period.
    + rewrite transit_model_sample. f_equal. unfold np_ones_like.
      apply list_fmap_ext. intros i t _. by apply sample_flux_zero_period.
  - intros Hp. rewrite phase_fold_fmap. apply Forall_fmap, Forall_forall.
    intros [a|] _; simpl.
    + right. apply phase_at_within. lra.
    + by left.
Qed.

Lemma nonpositive_period_not_rejected_witness :
  ~ raises (Kepler._transit_model [Fin 1; Fin 2] 0.1 (-2) 10) /\
  Detective.fold_at_period
    {| Detective.time := Some [Fin 1; Fin 2];
       Detective.flux := Some [Fin 1; Fin 1] |} (-2)
  = Some (phase_fold [Fin 1; Fin 2] (-2)) /\
  (-2 == 0 ->
     phase_fold [Fin 1; Fin 2] (-2) = (fun _ => NaN) <$> [Fin 1; Fin 2] /\
     Kepler._transit_model [Fin 1; Fin 2] 0.1 (-2) 10
     = Returned (np_ones_like [Fin 1; Fin 2])) /\
  (-2 < 0 ->
     Forall (fun x => x = NaN \/ within 0 1 x) (phase_fold [Fin 1; Fin 2] (-2))).
Proof.
  apply (nonpositive_period_not_rejected
           [Fin 1; Fin 2] [Fin 1; Fin 1] 0.1 (-2) 10).
  discriminate.
Defined.

(** C2 fails as stated: at period zero both calls return, the fold with
    a NaN phase, and at a negative period they return ordinary values. *)
Lemma period_zero_returns_nan :
  0 <= 0 /\ -2 <= 0 /\
  Kepler._transit_model [Fin 1] 0.1 0 10 = Returned [Fin 1] /\
  Detective.fold_at_period
    {| Detective.time := Some [Fin 1]; Detective.flux := Some [Fin 1] |} 0
  = Some [NaN] /\
  Kepler._transit_model [Fin 1; Fin 2] 0.1 (-2) 10 = Returned [Fin 0.99; Fin 1] /\
  Detective.fold_at_period
    {| Detective.time := Some [Fin 1; Fin 2];
       Detective.flux := Some [Fin 1; Fin 1] |} (-2)
  = Some [Fin (1 # 2); Fin (0 # 2)].
Proof.
  split; [discriminate|]. split; [discriminate|].
  repeat split; vm_compute; reflexivity.
Qed.
End BadPeriod.

(** ** The fit score *)

Section ScoreFacts.
Import Kepler.

Lemma score_of_rms_antitone (e1 e2 : R) :
  (e1 <= e2)%R -> (score_of_rms e2 <= score_of_rms e1)%R.
Proof.
  intros Hle. unfold score_of_rms.
  apply Rle_min_compat_r, Rle_max_compat_r.
  apply Rmult_le_compat_l; [lra|].
  destruct (Req_dec e1 e2) as [->|Hne]; [lra|].
  left. apply exp_increasing. lra.
Qed.

Lemma score_of_rms_zero : score_of_rms 0 = 100%R.
Proof.
  unfold score_of_rms.
  replace (- 0 * 1000)%R with 0%R by lra. rewrite exp_0.
  rewrite Rmax_left, Rmin_left; lra.
Qed.

Lemma score_of_rms_bounds (e : R) : (0 <= score_of_rms e <= 100)%R.
Proof.
  unfold score_of_rms. split.
  - apply Rmin_glb; [apply Rmax_r|lra].
  - apply Rmin_r.
Qed.

(** The result of the scorer, given the residuals. *)
Lemma fit_quality_residuals (flux model_flux residuals : list float64) :
  np_sub flux model_flux = Returned residuals ->
  fit_quality flux model_flux
  = Returned
      {| rms_error := np_sqrt (np_mean (fsq <$> residuals));
         score := rlift score_of_rms (np_sqrt (np_mean (fsq <$> residuals))) |}.
Proof.
  intros Hsub. unfold fit_quality. rewrite Hsub. cbv zeta. simpl.
  by destruct (np_sqrt _).
Qed.

Lemma fit_quality_raises (flux model_flux : list float64) (e : exn) :
  np_sub flux model_flux = Raised e -> fit_quality flux model_flux = Raised e.
Proof. intros Hsub. unfold fit_quality. by rewrite Hsub. Qed.

(** Whatever the scorer returns, the score is the curve at its error. *)
Lemma fit_quality_score (flux model_flux : list float64) (r : FitResult) :
  fit_quality flux model_flux = Returned r ->
  score r = rlift score_of_rms (rms_error r).
Proof.
  destruct (np_sub flux model_flux) as [res|e] eqn:Hsub.
  - rewrite (fit_quality_residuals _ _ _ Hsub). by intros [= <-].
  - by rewrite (fit_quality_raises _ _ _ Hsub).
Qed.

Lemma Q2R_Qabs (q : Q) : Q2R (Qabs q) = Rabs (Q2R q).
Proof.
  apply Qabs_case; intros Hq.
  - rewrite Rabs_right; [done|]. apply Rle_ge.
    replace 0%R with (Q2R 0) by apply RMicromega.Q2R_0. by apply Qle_Rle.
  - rewrite Q2R_opp, Rabs_left1; [done|].
    replace 0%R with (Q2R 0) by apply RMicromega.Q2R_0. by apply Qle_Rle.
Qed.

(** Residuals that all equal [c] sum, squared, to [n * c^2]. *)
Lemma uniform_residual_sum (res : list float64) (c : Q) :
  Forall (fun r => feq r (Fin c)) res ->
  exists s, foldr fadd (Fin 0) (fsq <$> res) = Fin s /\
            (s == inject_Z (Z.of_nat (length res)) * (c * c))%Q.
Proof.
  induction 1 as [|r res Hr _ (s & Hs & Es)].
  - exists 0%Q. split; [done|]. simpl. ring.
  - destruct r as [a|]; [|done]. simpl in Hr. csimpl. rewrite Hs.
    eexists. split; [reflexivity|].
    rewrite Nat2Z.inj_succ, <- Z.add_1_r, inject_Z_plus, Es, Hr.
    change (inject_Z 1) with 1%Q. ring.
Qed.

(** Their root mean square is [|c|]. *)
Lemma uniform_residual_rms (res : list float64) (c : Q) :
  res <> [] -> Forall (fun r => feq r (Fin c)) res ->
  np_sqrt (np_mean (fsq <$> res)) = RFin (Q2R (Qabs c)).
Proof.
  intros Hne Hall. destruct (uniform_residual_sum res c Hall) as (s & Hs & Es).
  unfold np_mean. rewrite Hs, length_fmap.
  set (n := inject_Z (Z.of_nat (length res))) in *.
  assert (Hn : (0 < n)%Q).
  { unfold n. change 0%Q with (inject_Z 0). rewrite <- Zlt_Qlt.
    destruct res; [done|]. simpl. lia. }
  assert (Hmean : (s / n == c * c)%Q) by (rewrite Es; field; lra).
  simpl. rewrite Qeq_bool_false by lra. simpl.
  assert (Hnn : Qle_bool 0 (s / n) = true).
  { apply Qle_bool_iff. rewrite Hmean. nra. }
  rewrite Hnn. f_equal.
  rewrite (Qeq_eqR _ _ Hmean), Q2R_mult, Q2R_Qabs.
  apply sqrt_Rsqr_abs.
Qed.
End ScoreFacts.

Section ScoreClaims.
Import Kepler.

Lemma np_sub_same_length (a b : list float64) :
  length a = length b -> np_sub a b = Returned (zip_with fsub a b).
Proof. intros H. unfold np_sub. by rewrite decide_True. Qed.

(** Observed values against the same values moved by [d]. *)
Lemma offset_residuals (x : list Q) (d : Q) :
  np_sub (Fin <$> x) ((fun a => Fin (a + d)%Q) <$> x)
  = Returned ((fun a => Fin (a - (a + d))%Q) <$> x) /\
  Forall (fun r => feq r (Fin (- d)%Q)) ((fun a => Fin (a - (a + d))%Q) <$> x).
Proof.
  split.
  - rewrite np_sub_same_length by (by rewrite !length_fmap). f_equal.
    induction x as [|a x IH]; [done|]. csimpl. by rewrite IH.
  - apply Forall_fmap, Forall_forall. intros a _. simpl. ring.
Qed.

Lemma self_residuals (x : list Q) :
  np_sub (Fin <$> x) (Fin <$> x) = Returned ((fun a => Fin (a - a)%Q) <$> x) /\
  Forall (fun r => feq r (Fin 0)) ((fun a => Fin (a - a)%Q) <$> x).
Proof.
  split.
  - rewrite np_sub_same_length by done. f_equal.
    induction x as [|a x IH]; [done|]. csimpl. by rewrite IH.
  - apply Forall_fmap, Forall_forall. intros a _. simpl. ring.
Qed.

(** C6: the score does not increase with the root-mean-square error:
    of two results of the scorer, the one with the larger error has the
    smaller or equal score; in particular, scoring [x] against [x + d]
    gives the error [|d|], and the score does not increase as [|d|]
    grows. *)
Theorem fit_score_antitone :
  (forall (o1 m1 o2 m2 : list float64) (r1 r2 : FitResult),
      fit_quality o1 m1 = Returned r1 ->
      fit_quality o2 m2 = Returned r2 ->
      rfloat_le (rms_error r1) (rms_error r2) ->
      rfloat_le (score r2) (score r1)) /\
  (forall (x : list Q) (d1 d2 : Q),
      x <> [] -> (Qabs d1 <= Qabs d2)%Q ->
      exists r1 r2,
        fit_quality (Fin <$> x) ((fun a => Fin (a + d1)%Q) <$> x) = Returned r1 /\
        fit_quality (Fin <$> x) ((fun a => Fin (a + d2)%Q) <$> x) = Returned r2 /\
        rms_error r1 = RFin (Q2R (Qabs d1)) /\
        rms_error r2 = RFin (Q2R (Qabs d2)) /\
        rfloat_le (score r2) (score r1)).
Proof.
  assert (Hgen : forall (o1 m1 o2 m2 : list float64) (r1 r2 : FitResult),
             fit_quality o1 m1 = Returned r1 ->
             fit_quality o2 m2 = Returned r2 ->
             rfloat_le (rms_error r1) (rms_error r2) ->
             rfloat_le (score r2) (score r1)).
  { intros o1 m1 o2 m2 r1 r2 H1 H2 Hle.
    rewrite (fit_quality_score _ _ _ H1), (fit_quality_score _ _ _ H2).
    destruct (rms_error r1) as [e1|], (rms_error r2) as [e2|]; try done.
    simpl in *. by apply score_of_rms_antitone. }
  split; [exact Hgen|].
  intros x d1 d2 Hx Hd.
  assert (Hrms : forall d,
             exists r, fit_quality (Fin <$> x) ((fun a => Fin (a + d)%Q) <$> x)
                       = Returned r /\ rms_error r = RFin (Q2R (Qabs d))).
  { intros d. destruct (offset_residuals x d) as [Hsub Hall].
    eexists. split; [apply (fit_quality_residuals _ _ _ Hsub)|]. simpl.
    rewrite (uniform_residual_rms _ (- d)%Q); [|by destruct x|done].
    by rewrite (Qeq_eqR _ _ (Qabs_opp d)). }
  destruct (Hrms d1) as (r1 & H1 & E1), (Hrms d2) as (r2 & H2 & E2).
  exists r1, r2. do 4 (split; [done|]).
  apply (Hgen _ _ _ _ _ _ H1 H2). rewrite E1, E2. simpl. by apply Qle_Rle.
Qed.

Lemma fit_score_antitone_witness :
  (exists r1 r2,
     fit_quality [Fin 1] [Fin 1] = Returned r1 /\
     fit_quality [Fin 1] [Fin 0] = Returned r2 /\
     rfloat_le (rms_error r1) (rms_error r2) /\
     rfloat_le (score r2) (score r1)) /\
  (exists r1 r2,
     fit_quality (Fin <$> [1; 0.99]%Q) ((fun a => Fin (a + 0.001)%Q) <$> [1; 0.99]%Q)
     = Returned r1 /\
     fit_quality (Fin <$> [1; 0.99]%Q) ((fun a => Fin (a + -0.002)%Q) <$> [1; 0.99]%Q)
     = Returned r2 /\
     rms_error r1 = RFin (Q2R (Qabs 0.001)) /\
     rms_error r2 = RFin (Q2R (Qabs (-0.002))) /\
     rfloat_le (score r2) (score r1)).
Proof.
  split.
  - eexists _, _. split; [reflexivity|]. split; [reflexivity|].
    assert (Hle : (sqrt (Q2R ((1 - 1) * (1 - 1) + 0 / 1))
                   <= sqrt (Q2R ((1 - 0) * (1 - 0) + 0 / 1)))%R).
    { apply sqrt_le_1_alt, Qle_Rle. discriminate. }
    split; [exact Hle|].
    exact (proj1 fit_score_antitone
             [Fin 1] [Fin 1] [Fin 1] [Fin 0] _ _ eq_refl eq_refl Hle).
  - apply (proj2 fit_score_antitone [1; 0.99]%Q 0.001%Q (-0.002)%Q);
      discriminate.
Defined.

(** C7, as the code has it: scoring a non-empty sequence of finite
    values against itself: the residuals are all zero, the
    root-mean-square error is 0 and the score is 100. *)
Theorem self_fit_is_perfect (x : list Q) :
  x <> [] ->
  exists residuals,
    np_sub (Fin <$> x) (Fin <$> x) = Returned residuals /\
    Forall (fun r => feq r (Fin 0)) residuals /\
    fit_quality (Fin <$> x) (Fin <$> x)
    = Returned {| rms_error := RFin 0; score := RFin 100 |}.
Proof.
  intros Hx. destruct (self_residuals x) as [Hsub Hall].
  eexists. split; [exact Hsub|]. split; [exact Hall|].
  rewrite (fit_quality_residuals _ _ _ Hsub).
  rewrite (uniform_residual_rms _ 0%Q); [|by destruct x|done].
  change (Qabs 0) with 0%Q. rewrite RMicromega.Q2R_0. simpl.
  by rewrite score_of_rms_zero.
Qed.

Lemma self_fit_is_perfect_witness :
  exists residuals,
    np_sub (Fin <$> [1; 1; 0.99; 1]%Q) (Fin <$> [1; 1; 0.99; 1]%Q)
    = Returned residuals /\
    Forall (fun r => feq r (Fin 0)) residuals /\
    fit_quality (Fin <$> [1; 1; 0.99; 1]%Q) (Fin <$> [1; 1; 0.99; 1]%Q)
    = Returned {| rms_error := RFin 0; score := RFin 100 |}.
Proof. apply (self_fit_is_perfect [1; 1; 0.99; 1]%Q). discriminate. Defined.

(** C7 fails as stated: a sequence that holds a NaN is not empty, and
    scored against itself it has a NaN residual, a NaN error and a NaN
    score. *)
Lemma nan_self_fit_is_nan :
  [NaN] <> [] /\
  np_sub [NaN] [NaN] = Returned [NaN] /\
  fit_quality [NaN] [NaN] = Returned {| rms_error := RNaN; score := RNaN |} /\
  fit_quality [Fin 1; NaN] [Fin 1; NaN]
  = Returned {| rms_error := RNaN; score := RNaN |}.
Proof. split; [discriminate|]. repeat split; reflexivity. Qed.

(** C8, as the code has it: on arrays of unequal length the subtraction
    raises a ValueError, so no result is returned, unless one of the two
    has exactly one element; that one is broadcast against the other
    and a result is returned. *)
Theorem unequal_lengths_raise_unless_broadcast (observed modeled : list float64) :
  length observed <> length modeled ->
  (length observed <> 1%nat -> length modeled <> 1%nat ->
     fit_quality observed modeled = Raised ValueError) /\
  (length observed = 1%nat \/ length modeled = 1%nat ->
     exists r, fit_quality observed modeled = Returned r).
Proof.
  intros Hlen. split.
  - intros Ho Hm. apply fit_quality_raises. unfold np_sub.
    rewrite decide_False by done.
    destruct observed as [|x [|x' o]], modeled as [|y [|y' m]]; done.
  - intros Hone.
    assert (exists res, np_sub observed modeled = Returned res) as [res Hres].
    { unfold np_sub. rewrite decide_False by done.
      destruct Hone as [Ho|Hm].
      - destruct observed as [|x [|x' o]]; [done| |done]. eauto.
      - destruct modeled as [|y [|y' m]]; [done| |done].
        destruct observed as [|x [|x' o]]; eauto. }
    eexists. apply (fit_quality_residuals _ _ _ Hres).
Qed.

Lemma unequal_lengths_raise_unless_broadcast_witness :
  (length [Fin 1; Fin 2] <> 1%nat -> length [Fin 1; Fin 2; Fin 3] <> 1%nat ->
     fit_quality [Fin 1; Fin 2] [Fin 1; Fin 2; Fin 3] = Raised ValueError) /\
  (length [Fin 1; Fin 2] = 1%nat \/ length [Fin 1; Fin 2; Fin 3] = 1%nat ->
     exists r, fit_quality [Fin 1; Fin 2] [Fin 1; Fin 2; Fin 3] = Returned r).
Proof.
  apply (unequal_lengths_raise_unless_broadcast
           [Fin 1; Fin 2] [Fin 1; Fin 2; Fin 3]).
  discriminate.
Defined.

(** C8 fails as stated: one observed value against three modeled values
    is scored, not rejected. *)
Lemma single_observation_is_broadcast :
  length [Fin 1] <> length [Fin 1; Fin 1; Fin 1] /\
  fit_quality [Fin 1] [Fin 1; Fin 1; Fin 1]
  = Returned {| rms_error := RFin 0; score := RFin 100 |}.
Proof.
  split; [discriminate|].
  assert (Hsub : np_sub [Fin 1] [Fin 1; Fin 1; Fin 1]
                 = Returned [Fin (1 - 1); Fin (1 - 1); Fin (1 - 1)]%Q) by done.
  rewrite (fit_quality_residuals _ _ _ Hsub).
  rewrite (uniform_residual_rms _ 0%Q); [|done|].
  - change (Qabs 0) with 0%Q. rewrite RMicromega.Q2R_0. simpl.
    by rewrite score_of_rms_zero.
  - repeat constructor.
Qed.

(** C9, as the code has it: zero-length arrays raise nothing.  The
    model of an empty time array is empty, the residuals are empty,
    their mean is NaN, and the error and the score come back as NaN.
    Of the folding tools, Activity 2 folds an empty array into an empty
    one, and Activity 3 alone looks at the length and folds nothing. *)
Theorem empty_input_scores_nan (planet_size orbital_period orbital_speed : Q) :
  Kepler._transit_model [] planet_size orbital_period orbital_speed = Returned [] /\
  fit_quality [] [] = Returned {| rms_error := RNaN; score := RNaN |} /\
  update_fit [] [] planet_size orbital_period orbital_speed
  = Returned {| rms_error := RNaN; score := RNaN |} /\
  Detective.fold_at_period
    {| Detective.time := Some []; Detective.flux := Some [] |} orbital_period
  = Some [] /\
  Habitable.fold_at_period
    {| Habitable.time := Some []; Habitable.flux := Some [] |} orbital_period
  = None.
Proof.
  assert (Hm : Kepler._transit_model [] planet_size orbital_period orbital_speed
               = Returned []) by apply transit_model_sample.
  split; [exact Hm|]. split; [done|]. split; [|done].
  unfold update_fit. by rewrite Hm.
Qed.

(** C9 fails as stated: the scorer on empty arrays returns NaN scores
    and raises nothing. *)
Lemma empty_arrays_are_scored :
  length ([] : list float64) = 0%nat /\
  fit_quality [] [] = Returned {| rms_error := RNaN; score := RNaN |} /\
  update_fit [] [] 0.05 260 4 = Returned {| rms_error := RNaN; score := RNaN |}.
Proof. done. Qed.
End ScoreClaims.

(** ** Arrays in the store: what a call writes *)

Section FrameFacts.
Implicit Types (σ : gmap Ref.loc (list float64)).

Lemma fresh_loc_unused σ : σ !! fresh (dom σ) = None.
Proof. apply not_elem_of_dom, is_fresh. Qed.

Lemma alloc_extends σ (a : list float64) : σ ⊆ <[fresh (dom σ) := a]> σ.
Proof. apply insert_subseteq, fresh_loc_unused. Qed.

Lemma run_load {A} σ (l : Ref.loc) (a : list float64)
    (k : list float64 -> Ref.py A) :
  σ !! l = Some a -> (Ref.load l ≫= k) σ = k a σ.
Proof. intros Hl. unfold mbind, Ref.py_bind, Ref.load. by rewrite Hl. Qed.

Lemma run_alloc {A} σ (a : list float64) (k : Ref.loc -> Ref.py A) :
  (Ref.alloc a ≫= k) σ = k (fresh (dom σ)) (<[fresh (dom σ) := a]> σ).
Proof. done. Qed.

Lemma run_setitem_scalar {A} σ (l : Ref.loc) (a : list float64)
    (m : list bool) (v : float64) (k : unit -> Ref.py A) :
  σ !! l = Some a ->
  (Ref.setitem_scalar l m v ≫= k) σ = k () (<[l := mask_fill a m v]> σ).
Proof.
  intros Hl. unfold Ref.setitem_scalar, mbind, Ref.py_bind, Ref.load.
  by rewrite Hl.
Qed.

Lemma run_setitem {A} σ (l : Ref.loc) (a a' : list float64)
    (m : list bool) (vs : list float64) (k : unit -> Ref.py A) :
  σ !! l = Some a -> mask_assign a m vs = Returned a' ->
  (Ref.setitem l m vs ≫= k) σ = k () (<[l := a']> σ).
Proof.
  intros Hl Ha. unfold Ref.setitem, mbind, Ref.py_bind, Ref.load, Ref.lift.
  by rewrite Hl, Ha.
Qed.

(** The reference-level model returns a new object holding what the
    value-level model returns, and changes nothing else. *)
Lemma ref_transit_model_run σ (time : Ref.loc) (t : list float64)
    (ps period ip : Q) :
  σ !! time = Some t ->
  Ref._transit_model time ps period ip σ
  = Returned (fresh (dom σ),
              <[fresh (dom σ) := sample_flux ps period ip <$> t]> σ).
Proof.
  intros Ht. pose proof (transit_model_sample t ps period ip) as Hv.
  revert Hv. unfold Kepler._transit_model, Ref._transit_model.
  rewrite (run_load _ _ _ _ Ht). cbv zeta. rewrite run_alloc.
  set (l := fresh (dom σ)).
  set (ds := fabs <$> _).
  set (in_transit := (fun d => flt d (Fin (0.1 * (ip / 10))%Q)) <$> ds).
  set (mid_transit := (fun d => flt d (Fin (0.1 * (ip / 10) * 0.6)%Q)) <$> ds).
  set (edges := zip_with andb in_transit (negb <$> mid_transit)).
  destruct (np_any in_transit).
  - rewrite (run_setitem_scalar _ _ (np_ones_like t))
      by apply lookup_insert_eq.
    rewrite insert_insert_eq.
    destruct (np_any edges).
    + intros Hv. rewrite (run_setitem _ _ _ _ _ _ _ (lookup_insert_eq _ _ _) Hv).
      by rewrite insert_insert_eq.
    + intros Hv. unfold mret, Ref.py_ret. congruence.
  - intros Hv. unfold mret, Ref.py_ret. congruence.
Qed.

Lemma ref_transit_model_bad_reference σ (time : Ref.loc) (ps period ip : Q) :
  σ !! time = None ->
  Ref._transit_model time ps period ip σ = Raised BadReference.
Proof.
  intros Ht. unfold Ref._transit_model, mbind, Ref.py_bind, Ref.load at 1.
  by rewrite Ht.
Qed.

(** C10: neither the transit model nor [fold_at_period] writes to an
    array the caller holds.  The model returns a new object, the only
    one written, and every object of the store before the call is in
    the store after it with the same elements; the fold likewise puts
    the phases in a new object, or changes nothing when no data is
    loaded. *)
Theorem inputs_are_not_mutated σ (time : Ref.loc) (ps period ip : Q)
    (self : Ref.mission) :
  match Ref._transit_model time ps period ip σ with
  | Returned (flux, σ') =>
      σ !! flux = None /\ σ ⊆ σ' /\ σ' !! time = σ !! time /\
      exists a, σ' = <[flux := a]> σ
  | Raised _ => σ !! time = None
  end /\
  match Ref.fold_at_period self period σ with
  | Returned (Some phase, σ') =>
      σ !! phase = None /\ σ ⊆ σ' /\
      (exists tl, Ref.time self = Some tl /\ σ' !! tl = σ !! tl) /\
      exists a, σ' = <[phase := a]> σ
  | Returned (None, σ') => σ' = σ
  | Raised _ => exists tl, Ref.time self = Some tl /\ σ !! tl = None
  end.
Proof.
  assert (Hkeep : forall (l : Ref.loc) (a : list float64),
             <[fresh (dom σ) := a]> σ !! l = σ !! l \/ σ !! l = None).
  { intros l a. destruct (decide (l = fresh (dom σ))) as [->|Hne].
    - right. apply fresh_loc_unused.
    - left. by rewrite lookup_insert_ne. }
  split.
  - destruct (σ !! time) as [t|] eqn:Ht.
    + rewrite (ref_transit_model_run _ _ _ _ _ _ Ht).
      split; [apply fresh_loc_unused|]. split; [apply alloc_extends|].
      split; [|by eexists].
      destruct (Hkeep time (sample_flux ps period ip <$> t)) as [->|Hnone];
        [done|congruence].
    + by rewrite (ref_transit_model_bad_reference _ _ _ _ _ Ht).
  - unfold Ref.fold_at_period.
    destruct (Ref.time self) as [tl|] eqn:Etl; [|done].
    destruct (Ref.flux self) as [fl|] eqn:Efl; [|done].
    unfold mbind, Ref.py_bind, Ref.load at 1.
    destruct (σ !! tl) as [t|] eqn:Ht; [|by exists tl].
    unfold Ref.alloc at 1. cbv zeta. simpl.
    split; [apply fresh_loc_unused|]. split; [apply alloc_extends|].
    split; [|by eexists].
    exists tl. split; [done|].
    destruct (Hkeep tl (phase_fold t period)) as [->|Hnone]; [done|congruence].
Qed.
End FrameFacts.

(** ** The habitability score *)

Section HabitabilityFacts.
Import Habitable.
Local Open Scope Q_scope.

Lemma py_clamp_bounds (s : Q) :
  0.3 <= py_max 0.3 (py_min 1.0 s) /\ py_max 0.3 (py_min 1.0 s) <= 1.0.
Proof.
  unfold py_max, py_min.
  destruct (Qltb s 1.0) eqn:E1.
  - apply Qltb_lt in E1.
    destruct (Qltb 0.3 s) eqn:E2.
    + apply Qltb_lt in E2. lra.
    + lra.
  - destruct (Qltb 0.3 1.0) eqn:E2.
    + lra.
    + apply Qltb_ge in E2. lra.
Qed.

(** C4: for every temperature the habitability score lies in
    [0.3, 1.0]: whichever band the temperature falls in, the value
    returned is the band's score passed through the clamp. *)
Theorem habitability_score_bounded (temp : Q) :
  0.3 <= _calculate_habitability_score temp /\
  _calculate_habitability_score temp <= 1.0.
Proof.
  unfold _calculate_habitability_score. cbv zeta. apply py_clamp_bounds.
Qed.

(** C5: the score is not monotone in the distance from 15 degrees: at
    -21 it is 0.6 - 1/150, at -20 it is 1 - 35/65, and the colder of the
    two temperatures gets the strictly higher score. *)
Theorem habitability_score_jump_at_minus_20 :
  _calculate_habitability_score (-21) == 0.6 - 1 / 150 /\
  _calculate_habitability_score (-20) == 1 - 35 / 65 /\
  exists t1 t2 : Q,
    t1 < t2 /\ t2 <= 15 /\
    _calculate_habitability_score t2 < _calculate_habitability_score t1.
Proof.
  split; [by vm_compute|]. split; [by vm_compute|].
  exists (-21), (-20). by vm_compute.
Qed.
End HabitabilityFacts.

(** * Part III: further properties of the code *)

(** ** The transit model *)

Section TransitShape.
Local Open Scope Q_scope.

Lemma Qltb_proper (a a' b b' : Q) :
  a == a' -> b == b' -> Qltb a b = Qltb a' b'.
Proof. intros Ha Hb. unfold Qltb. by rewrite Ha, Hb. Qed.


Lemma within_finite (lo hi : Q) (x : float64) :
  within lo hi x -> exists a, x = Fin a /\ lo <= a /\ a <= hi.
Proof. destruct x as [a|]; [|done]. intros H. by exists a. Qed.

Lemma depth_nonneg (rr : Q) : 0 <= rr ^ 2.
Proof. rewrite Qsquare. nra. Qed.

Lemma sample_flux_within (rr period width : Q) (t : float64) :
  within (1 - rr ^ 2) 1 (sample_flux rr period width t).
Proof. apply flux_at_within, depth_nonneg. Qed.





(** A radius ratio of zero gives the flat baseline: every sample is 1,
    whatever the times, period and width. *)
Theorem zero_radius_is_flat (time : list float64) (period widthFactor : Q) :
  exists flux,
    Kepler._transit_model time 0 period widthFactor = Returned flux /\
    length flux = length time /\
    Forall (fun f => feq f (Fin 1)) flux.
Proof.
  eexists. split; [apply transit_model_sample|].
  split; [by rewrite length_fmap|].
  apply Forall_fmap, Forall_forall. intros t _. simpl.
  destruct (within_finite _ _ _ (sample_flux_within 0 period widthFactor t))
    as (a & -> & Hlo & Hhi).
  simpl. change (0 ^ 2) with (0 * 0) in Hlo. lra.
Qed.








(** The model never raises on finite parameters: the write-back of the
    taper always has one value per selected sample.  The result has the
    length of the time array and holds finite values only, and a NaN
    time gets the baseline.  The radius ratio is kept within 10^150, far
    above any slider value: beyond about 1.3e154 Python's
    [planet_size**2] overflows and raises. *)
Theorem transit_model_never_raises
    (time before after : list float64) (radiusRatio period widthFactor : Q) :
  Qabs radiusRatio <= 10 ^ 150 ->
  (exists flux,
     Kepler._transit_model time radiusRatio period widthFactor = Returned flux /\
     length flux = length time /\
     Forall (fun f => exists a, f = Fin a) flux) /\
  (exists flux,
     Kepler._transit_model (before ++ NaN :: after) radiusRatio period widthFactor
     = Returned flux /\
     flux !! length before = Some (Fin 1)).
Proof.
  intros _. split.
  - eexists. split; [apply transit_model_sample|].
    split; [by rewrite length_fmap|].
    apply Forall_fmap, Forall_forall. intros t _. simpl.
    destruct (within_finite _ _ _
                (sample_flux_within radiusRatio period widthFactor t))
      as (a & -> & _). by exists a.
  - eexists. split; [apply transit_model_sample|].
    by rewrite list_lookup_fmap, list_lookup_middle.
Qed.

Lemma transit_model_never_raises_witness :
  (exists flux,
     Kepler._transit_model [Fin 0; Fin 145; NaN] 0.05 290 1 = Returned flux /\
     length flux = length [Fin 0; Fin 145; NaN] /\
     Forall (fun f => exists a, f = Fin a) flux) /\
  (exists flux,
     Kepler._transit_model ([Fin 0; Fin 145] ++ NaN :: [Fin 290]) 0.05 290 1
     = Returned flux /\
     flux !! length [Fin 0; Fin 145] = Some (Fin 1)).
Proof.
  apply (transit_model_never_raises
           [Fin 0; Fin 145; NaN] [Fin 0; Fin 145] [Fin 290] 0.05 290 1).
  discriminate.
Defined.
End TransitShape.

(** ** The fit score *)

Section FitShape.
Import Kepler.

Lemma rms_error_nonneg (o m : list float64) (r : FitResult) (e : R) :
  fit_quality o m = Returned r -> rms_error r = RFin e -> (0 <= e)%R.
Proof.
  destruct (np_sub o m) as [res|x] eqn:Hsub.
  - rewrite (fit_quality_residuals _ _ _ Hsub). intros [= <-]. simpl.
    unfold np_sqrt. destruct (np_mean _) as [q|]; [|done].
    destruct (Qle_bool 0 q); [|done]. intros [= <-]. apply sqrt_pos.
  - by rewrite (fit_quality_raises _ _ _ Hsub).
Qed.

(** On a non-negative error the clip changes nothing. *)
Lemma score_of_rms_unclipped (e : R) :
  (0 <= e)%R ->
  score_of_rms e = (100 * exp (- e * 1000))%R /\
  (0 < 100 * exp (- e * 1000) <= 100)%R.
Proof.
  intros He.
  assert (Hpos : (0 < exp (- e * 1000))%R) by apply exp_pos.
  assert (Hle : (exp (- e * 1000) <= 1)%R).
  { rewrite <- exp_0. destruct (Req_dec e 0) as [->|Hne].
    - replace (- 0 * 1000)%R with 0%R by lra. lra.
    - left. apply exp_increasing. lra. }
  split; [|lra].
  unfold score_of_rms. rewrite Rmax_left, Rmin_left; lra.
Qed.

(** The clip of the score never acts: for any input the scorer accepts,
    the error is not negative and the score is [100 * exp(-1000 * error)],
    not negative and at most 100; a NaN error gives a NaN score.  (The
    real exponential is positive; in double precision it reaches 0 from
    an error of about 0.745.) *)
Theorem fit_score_is_never_clipped (observed modeled : list float64)
    (r : FitResult) :
  fit_quality observed modeled = Returned r ->
  match rms_error r with
  | RFin e =>
      (0 <= e)%R /\
      score r = RFin (100 * exp (- e * 1000)) /\
      (0 <= 100 * exp (- e * 1000) <= 100)%R
  | RNaN => score r = RNaN
  end.
Proof.
  intros Hfit. rewrite (fit_quality_score _ _ _ Hfit).
  destruct (rms_error r) as [e|] eqn:He; [|done].
  pose proof (rms_error_nonneg _ _ _ _ Hfit He) as Hnn.
  cbn [rlift]. destruct (score_of_rms_unclipped e Hnn) as [-> Hb].
  split; [done|]. split; [done|]. lra.
Qed.

Lemma fit_score_is_never_clipped_witness :
  exists r,
    fit_quality [Fin 1] [Fin 0] = Returned r /\
    match rms_error r with
    | RFin e =>
        (0 <= e)%R /\
        score r = RFin (100 * exp (- e * 1000)) /\
        (0 <= 100 * exp (- e * 1000) <= 100)%R
    | RNaN => score r = RNaN
    end.
Proof.
  eexists. split; [reflexivity|].
  apply (fit_score_is_never_clipped [Fin 1] [Fin 0]). reflexivity.
Defined.

Lemma fsq_fsub_swap (x y : float64) : feq (fsq (fsub x y)) (fsq (fsub y x)).
Proof. destruct x, y; simpl; try done. ring. Qed.

Lemma zip_sub_swap (a b : list float64) :
  Forall2 (fun u v => feq (fsq u) (fsq v)) (zip_with fsub a b) (zip_with fsub b a).
Proof.
  revert b. induction a as [|x a IH]; intros [|y b]; simpl; try constructor.
  - apply fsq_fsub_swap.
  - apply IH.
Qed.

(** Swapping the operands of the subtraction: the same error, or
    residuals with the same squares. *)
Lemma np_sub_swap (a b : list float64) :
  match np_sub a b, np_sub b a with
  | Returned r1, Returned r2 => Forall2 (fun u v => feq (fsq u) (fsq v)) r1 r2
  | Raised e1, Raised e2 => e1 = e2
  | _, _ => False
  end.
Proof.
  unfold np_sub.
  destruct (decide (length a = length b)) as [Hl|Hl].
  - rewrite decide_True by done. apply zip_sub_swap.
  - rewrite decide_False by done.
    assert (Hmap : forall (x : float64) (l : list float64),
               Forall2 (fun u v => feq (fsq u) (fsq v))
                 (fsub x <$> l) ((fun e => fsub e x) <$> l)).
    { intros x l. apply Forall2_fmap, Forall_Forall2_diag, Forall_forall.
      intros e _. apply fsq_fsub_swap. }
    assert (Hmap' : forall (x : float64) (l : list float64),
               Forall2 (fun u v => feq (fsq u) (fsq v))
                 ((fun e => fsub e x) <$> l) (fsub x <$> l)).
    { intros x l. apply Forall2_fmap, Forall_Forall2_diag, Forall_forall.
      intros e _. apply fsq_fsub_swap. }
    destruct a as [|x [|x' a]], b as [|y [|y' b]]; done.
Qed.

Lemma sum_squares_feq (r1 r2 : list float64) :
  Forall2 (fun u v => feq (fsq u) (fsq v)) r1 r2 ->
  feq (foldr fadd (Fin 0) (fsq <$> r1)) (foldr fadd (Fin 0) (fsq <$> r2)).
Proof.
  induction 1 as [|u v r1 r2 Huv _ IH]; csimpl; [reflexivity|].
  destruct (fsq u), (fsq v), (foldr fadd (Fin 0) (fsq <$> r1)),
    (foldr fadd (Fin 0) (fsq <$> r2)); simpl in *; try done.
  by rewrite Huv, IH.
Qed.

Lemma rms_feq (r1 r2 : list float64) :
  Forall2 (fun u v => feq (fsq u) (fsq v)) r1 r2 ->
  np_sqrt (np_mean (fsq <$> r1)) = np_sqrt (np_mean (fsq <$> r2)).
Proof.
  intros H. pose proof (sum_squares_feq _ _ H) as Hs.
  apply Forall2_length in H. unfold np_mean. rewrite !length_fmap, H.
  destruct (foldr fadd (Fin 0) (fsq <$> r1)) as [s1|],
    (foldr fadd (Fin 0) (fsq <$> r2)) as [s2|]; simpl in *; try done.
  destruct (Qeq_bool _ 0); [done|]. simpl.
  assert (E : (s1 / inject_Z (Z.of_nat (length r2))
               == s2 / inject_Z (Z.of_nat (length r2)))%Q) by (by rewrite Hs).
  rewrite (Qleb_comp _ _ (Qeq_refl 0) _ _ E).
  destruct (Qle_bool 0 _); [|done]. f_equal. f_equal. by apply Qeq_eqR.
Qed.

(** The scorer is symmetric: swapping observed and modeled flux gives
    the same result, or the same error. *)
Theorem fit_quality_symmetric (a b : list float64) :
  fit_quality a b = fit_quality b a.
Proof.
  pose proof (np_sub_swap a b) as H.
  destruct (np_sub a b) as [r1|e1] eqn:H1, (np_sub b a) as [r2|e2] eqn:H2;
    try done.
  - rewrite (fit_quality_residuals _ _ _ H1), (fit_quality_residuals _ _ _ H2).
    by rewrite (rms_feq _ _ H).
  - rewrite (fit_quality_raises _ _ _ H1), (fit_quality_raises _ _ _ H2).
    by rewrite H.
Qed.

Lemma nan_in_residuals (o m : list float64) :
  length o = length m -> NaN ∈ o \/ NaN ∈ m -> NaN ∈ zip_with fsub o m.
Proof.
  revert m. induction o as [|x o IH]; intros [|y m] Hl; simpl in *; try done.
  - intros [H|H]; by apply elem_of_nil in H.
  - intros H. injection Hl as Hl.
    destruct x as [a|]; [|left].
    destruct y as [b|]; [|left].
    right. apply IH; [done|].
    destruct H as [H|H]; apply elem_of_cons in H as [H|H]; try done; eauto.
Qed.

Lemma nan_in_sum (l : list float64) :
  NaN ∈ l -> foldr fadd (Fin 0) (fsq <$> l) = NaN.
Proof.
  induction l as [|x l IH]; [by intros H%elem_of_nil|].
  intros H. csimpl. apply elem_of_cons in H as [<-|H]; [done|].
  rewrite (IH H). by destruct (fsq x).
Qed.

(** One NaN sample, observed or modeled, silently turns both the error
    and the score into NaN. *)
Theorem nan_sample_poisons_score (observed modeled : list float64) :
  length observed = length modeled ->
  NaN ∈ observed \/ NaN ∈ modeled ->
  fit_quality observed modeled
  = Returned {| rms_error := RNaN; score := RNaN |}.
Proof.
  intros Hl Hnan.
  rewrite (fit_quality_residuals _ _ _ (np_sub_same_length _ _ Hl)).
  unfold np_mean. rewrite (nan_in_sum _ (nan_in_residuals _ _ Hl Hnan)).
  done.
Qed.

Lemma nan_sample_poisons_score_witness :
  fit_quality [Fin 1; NaN; Fin 0.99] [Fin 1; Fin 1; Fin 0.99]
  = Returned {| rms_error := RNaN; score := RNaN |}.
Proof.
  apply (nan_sample_poisons_score [Fin 1; NaN; Fin 0.99] [Fin 1; Fin 1; Fin 0.99]);
    [reflexivity|].
  left. apply list_elem_of_further, list_elem_of_here.
Defined.
End FitShape.

(** ** The slider callback: feedback, progress bar and hints *)

Section ConsoleFacts.
Import Kepler Analysis.

Lemma ln_2_lt_1 : (ln 2 < 1)%R.
Proof.
  assert (H : (ln 2 < ln (exp 1))%R).
  { apply ln_increasing; [lra|]. pose proof (exp_ineq1 1). lra. }
  by rewrite ln_exp in H.
Qed.

Lemma exp_neg_ln_2 : exp (- ln 2) = (1 / 2)%R.
Proof. rewrite <- ln_Rinv by lra. rewrite exp_ln; lra. Qed.

(** The curve is above 50 exactly below [ln 2 / 1000]. *)
Lemma score_above_50 (e : R) :
  (50 < 100 * exp (- e * 1000))%R <-> (e < ln 2 / 1000)%R.
Proof.
  split; intros H.
  - assert (Hlt : (exp (- ln 2) < exp (- e * 1000))%R)
      by (rewrite exp_neg_ln_2; lra).
    apply exp_lt_inv in Hlt. lra.
  - assert (Hlt : (exp (- ln 2) < exp (- e * 1000))%R)
      by (apply exp_increasing; lra).
    rewrite exp_neg_ln_2 in Hlt. lra.
Qed.

Lemma score_below_50 (e : R) :
  (100 * exp (- e * 1000) < 50)%R <-> (ln 2 / 1000 < e)%R.
Proof.
  split; intros H.
  - assert (Hlt : (exp (- e * 1000) < exp (- ln 2))%R)
      by (rewrite exp_neg_ln_2; lra).
    apply exp_lt_inv in Hlt. lra.
  - assert (Hlt : (exp (- e * 1000) < exp (- ln 2))%R)
      by (apply exp_increasing; lra).
    rewrite exp_neg_ln_2 in Hlt. lra.
Qed.

(** The score of a finite error, without the clip. *)
Lemma finite_score (o m : list float64) (r : FitResult) (e : R) :
  fit_quality o m = Returned r -> rms_error r = RFin e ->
  (0 <= e)%R /\ score r = RFin (100 * exp (- e * 1000)) /\
  (0 < 100 * exp (- e * 1000) <= 100)%R.
Proof.
  intros Hfit He. pose proof (rms_error_nonneg _ _ _ _ Hfit He) as Hnn.
  rewrite (fit_quality_score _ _ _ Hfit), He. cbn [rlift].
  destruct (score_of_rms_unclipped e Hnn) as [-> Hb]. done.
Qed.

(** The fit is called excellent exactly when the root-mean-square error
    is below [ln 2 / 1000], about 0.00069. *)
Theorem excellent_fit_iff_small_error (observed modeled : list float64)
    (r : FitResult) (e : R) :
  fit_quality observed modeled = Returned r -> rms_error r = RFin e ->
  (feedback (score_feedback (score r))
   = "EXCELLENT FIT! Matches Kepler-22b data well!"
   <-> (e < ln 2 / 1000)%R).
Proof.
  intros Hfit He. destruct (finite_score _ _ _ _ Hfit He) as (_ & -> & _).
  unfold score_feedback, rgt.
  destruct (Rlt_dec 50 _) as [H50|H50].
  - split; [|done]. intros _. by apply score_above_50.
  - split.
    + destruct (Rlt_dec 40 _); [discriminate|].
      destruct (Rlt_dec 35 _); discriminate.
    + intros H%score_above_50. contradiction.
Qed.

Lemma excellent_fit_iff_small_error_witness :
  exists r e,
    fit_quality [Fin 1] [Fin 1] = Returned r /\ rms_error r = RFin e /\
    (feedback (score_feedback (score r))
     = "EXCELLENT FIT! Matches Kepler-22b data well!"
     <-> (e < ln 2 / 1000)%R).
Proof.
  eexists _, _. split; [reflexivity|]. split; [reflexivity|].
  apply (excellent_fit_iff_small_error [Fin 1] [Fin 1]); reflexivity.
Defined.

Lemma string_length_app (a b : string) :
  String.length (a +:+ b) = (String.length a + String.length b)%nat.
Proof. induction a as [|c a IH]; simpl; [done|]. by rewrite IH. Qed.

Lemma str_mul_char_length (c : Ascii.ascii) (n : Z) :
  String.length (str_mul (String c "") n) = Z.to_nat n.
Proof.
  unfold str_mul. induction (Z.to_nat n) as [|k IH]; [done|].
  rewrite Nat.iter_succ, string_length_app, IH. done.
Qed.

(** The number of filled cells, for a score in (0, 100]. *)
Lemma filled_cells (s : R) :
  (0 < s <= 100)%R ->
  exists filled,
    py_int (RFin (20 * s / 100)) = Returned filled /\
    (0 <= filled <= 20)%Z /\ (s = 100%R -> filled = 20%Z).
Proof.
  intros Hs. unfold py_int.
  destruct (Rle_dec 0 (20 * s / 100)) as [_|Hneg]; [|exfalso; apply Hneg; lra].
  eexists. split; [reflexivity|].
  destruct (base_Int_part (20 * s / 100)) as [Hlo Hhi].
  split; [split|].
  - assert (H : (IZR (-1) < IZR (Int_part (20 * s / 100)))%R) by lra.
    apply lt_IZR in H. lia.
  - apply le_IZR. lra.
  - intros ->. symmetry. apply Int_part_spec. lra.
Qed.

Lemma progress_bar_cells (observed modeled : list float64) (r : FitResult) :
  fit_quality observed modeled = Returned r ->
  match rms_error r with
  | RFin e =>
      exists filled,
        (0 <= filled <= 20)%Z /\
        progress_bar (score r)
        = Returned (str_mul "#" filled +:+ str_mul "-" (20 - filled)) /\
        String.length (str_mul "#" filled +:+ str_mul "-" (20 - filled)) = 20%nat /\
        (e = 0%R -> filled = 20%Z)
  | RNaN => progress_bar (score r) = Raised ValueError
  end.
Proof.
  intros Hfit. destruct (rms_error r) as [e|] eqn:He.
  - destruct (finite_score _ _ _ _ Hfit He) as (Hnn & -> & Hb).
    destruct (filled_cells _ Hb) as (filled & Hint & Hrange & Hfull).
    exists filled. split; [done|]. split; [|split].
    + unfold progress_bar. cbv zeta. cbn [rlift]. by rewrite Hint.
    + rewrite string_length_app, !str_mul_char_length. lia.
    + intros ->. apply Hfull.
      replace (- 0 * 1000)%R with 0%R by lra. rewrite exp_0. lra.
  - rewrite (fit_quality_score _ _ _ Hfit), He. done.
Qed.

(** The progress bar: for every finite score the bar is 20 characters
    wide, some number of [#] between 0 and 20 followed by [-], full on a
    perfect fit; on a NaN score the conversion to an integer raises a
    ValueError. *)
Theorem progress_bar_is_20_wide (observed modeled : list float64)
    (r : FitResult) :
  fit_quality observed modeled = Returned r ->
  match rms_error r with
  | RFin e =>
      exists filled,
        (0 <= filled <= 20)%Z /\
        progress_bar (score r)
        = Returned (str_mul "#" filled +:+ str_mul "-" (20 - filled)) /\
        String.length (str_mul "#" filled +:+ str_mul "-" (20 - filled)) = 20%nat /\
        (e = 0%R -> filled = 20%Z)
  | RNaN => progress_bar (score r) = Raised ValueError
  end.
Proof. apply progress_bar_cells. Qed.

Lemma progress_bar_is_20_wide_witness :
  exists r,
    fit_quality [Fin 1] [Fin 1] = Returned r /\
    match rms_error r with
    | RFin e =>
        exists filled,
          (0 <= filled <= 20)%Z /\
          progress_bar (score r)
          = Returned (str_mul "#" filled +:+ str_mul "-" (20 - filled)) /\
          String.length (str_mul "#" filled +:+ str_mul "-" (20 - filled)) = 20%nat /\
          (e = 0%R -> filled = 20%Z)
    | RNaN => progress_bar (score r) = Raised ValueError
    end.
Proof.
  eexists. split; [reflexivity|].
  apply (progress_bar_is_20_wide [Fin 1] [Fin 1]). reflexivity.
Defined.

Lemma np_sub_raises_value_error (a b : list float64) (e : exn) :
  np_sub a b = Raised e -> e = ValueError.
Proof.
  unfold np_sub. destruct (decide _); [done|].
  destruct a as [|x [|x' a]], b as [|y [|y' b]]; cbn; congruence.
Qed.

Lemma console_unequal_lengths (time flux model : list float64)
    (k : list float64 -> FitResult -> outcome analysis) :
  length model = length time -> length time <> length flux ->
  (residuals ← np_sub flux model;
   r ← fit_quality flux model;
   _ ← ax_scatter time flux;
   k residuals r) = Raised ValueError.
Proof.
  intros Hm Hl. unfold mbind, outcome_bind.
  destruct (np_sub flux model) as [res|e] eqn:Hsub.
  - rewrite (fit_quality_residuals _ _ _ Hsub).
    unfold ax_scatter. by rewrite decide_False.
  - by rewrite (np_sub_raises_value_error _ _ _ Hsub).
Qed.

(** On empty arrays the callback computes its NaN score and then fails:
    the progress bar raises a ValueError.  More generally, for a planet
    size whose square is a finite double, the callback completes exactly
    when time and flux have the same length and the fit has a finite
    error.  Arrays of different lengths are a ValueError: of the
    subtraction, or of the first scatter plot when one of the two is a
    single value and was broadcast. *)
Theorem empty_data_breaks_the_console
    (time flux : list float64) (planet_size orbital_period orbital_speed : Q) :
  (Qabs planet_size <= 10 ^ 150)%Q ->
  update_fit_console [] [] planet_size orbital_period orbital_speed
  = Raised ValueError /\
  (length time <> length flux ->
     update_fit_console time flux planet_size orbital_period orbital_speed
     = Raised ValueError) /\
  (length time = length flux ->
     exists r,
       update_fit time flux planet_size orbital_period orbital_speed
       = Returned r /\
       match rms_error r with
       | RFin _ =>
           exists a,
             update_fit_console time flux planet_size orbital_period
               orbital_speed = Returned a /\ fit a = r
       | RNaN =>
           update_fit_console time flux planet_size orbital_period
             orbital_speed = Raised ValueError
       end).
Proof.
  intros _. split; [|split].
  - unfold update_fit_console.
    by rewrite (transit_model_sample [] _ _ _).
  - intros Hl. unfold update_fit_console. rewrite transit_model_sample.
    change (Returned ?m ≫= ?f) with (f m). cbv beta.
    apply (console_unequal_lengths _ _ _
             (fun residuals r =>
                _ ← ax_plot time _; _ ← ax_scatter time residuals; _));
      [by rewrite length_fmap|done].
  - intros Hl. unfold update_fit_console, update_fit.
    rewrite transit_model_sample.
    set (model := sample_flux planet_size orbital_period orbital_speed <$> time).
    assert (Hm : length model = length time) by apply length_fmap.
    assert (Hsub : np_sub flux model = Returned (zip_with fsub flux model)).
    { apply np_sub_same_length. congruence. }
    pose proof (fit_quality_residuals _ _ _ Hsub) as Hfit.
    eexists. split; [exact Hfit|].
    pose proof (progress_bar_cells _ _ _ Hfit) as Hbar.
    unfold mbind, outcome_bind. rewrite Hsub, Hfit.
    unfold ax_scatter, ax_plot.
    rewrite (decide_True _ _ Hl).
    rewrite decide_True by congruence.
    rewrite decide_True.
    2:{ rewrite length_zip_with. lia. }
    cbn [rms_error score] in *.
    destruct (np_sqrt _) as [e|].
    + destruct Hbar as (filled & _ & -> & _). eauto.
    + by rewrite Hbar.
Qed.

Lemma empty_data_breaks_the_console_witness :
  update_fit_console [] [] 0.05 290 1 = Raised ValueError /\
  (length [Fin 0; Fin 145] <> length [Fin 1] ->
     update_fit_console [Fin 0; Fin 145] [Fin 1] 0.05 290 1
     = Raised ValueError) /\
  (length [Fin 0; Fin 145] = length [Fin 1] ->
     exists r,
       update_fit [Fin 0; Fin 145] [Fin 1] 0.05 290 1 = Returned r /\
       match rms_error r with
       | RFin _ =>
           exists a,
             update_fit_console [Fin 0; Fin 145] [Fin 1] 0.05 290 1
             = Returned a /\ fit a = r
       | RNaN =>
           update_fit_console [Fin 0; Fin 145] [Fin 1] 0.05 290 1
           = Raised ValueError
       end).
Proof.
  apply (empty_data_breaks_the_console [Fin 0; Fin 145] [Fin 1] 0.05 290 1).
  discriminate.
Defined.
End ConsoleFacts.

Section ConsoleHints.
Import Kepler Analysis.
Local Open Scope Q_scope.

(** The period hint is printed exactly when the root-mean-square error
    exceeds 0.001; the outer test on the score adds nothing to it, since
    such an error already puts the score below 50. *)
Theorem period_hint_iff_error_above_threshold
    (observed modeled : list float64) (r : FitResult) (e : R)
    (planet_size : Q) :
  fit_quality observed modeled = Returned r -> rms_error r = RFin e ->
  ("• Try adjusting the PERIOD slider" ∈ hints r planet_size
   <-> (0.001 < e)%R).
Proof.
  intros Hfit He. destruct (finite_score _ _ _ _ Hfit He) as (_ & Hs & _).
  unfold hints. rewrite Hs, He. unfold rlt, rgt.
  destruct (Rlt_dec 0.001 e) as [Hbig|Hsmall].
  - split; [done|]. intros _.
    assert (H50 : (100 * exp (- e * 1000) < 50)%R).
    { apply score_below_50. pose proof ln_2_lt_1. lra. }
    destruct (Rlt_dec _ 50) as [_|Hn]; [|contradiction].
    apply elem_of_app. right. apply elem_of_app. left.
    apply list_elem_of_here.
  - split; [|done]. intros Hin. exfalso.
    destruct (Rlt_dec _ 50); [|by apply elem_of_nil in Hin].
    destruct (Qltb planet_size 0.04); simpl in Hin;
      repeat (apply elem_of_cons in Hin as [Hin|Hin]; [discriminate Hin|]);
      by apply elem_of_nil in Hin.
Qed.

Lemma period_hint_iff_error_above_threshold_witness :
  exists r e,
    fit_quality [Fin 1] [Fin 0] = Returned r /\ rms_error r = RFin e /\
    ("• Try adjusting the PERIOD slider" ∈ hints r 0.05 <-> (0.001 < e)%R).
Proof.
  eexists _, _. split; [reflexivity|]. split; [reflexivity|].
  apply (period_hint_iff_error_above_threshold [Fin 1] [Fin 0]); reflexivity.
Defined.

(** Over the range of the planet-size slider, 0.005 to 0.09, the
    classification never reaches "Jupiter-sized"; it is "Earth-sized"
    below 0.04, "Super-Earth" from there up to 0.085 and "Neptune-sized"
    from 0.085 on. *)
Theorem slider_sizes_are_never_jupiter (planet_size : Q) :
  0.005 <= planet_size -> planet_size <= 0.09 ->
  size_class (classify_size planet_size) <> "Jupiter-sized" /\
  (size_class (classify_size planet_size) = "Earth-sized"
   <-> planet_size < 0.04) /\
  (size_class (classify_size planet_size) = "Super-Earth"
   <-> 0.04 <= planet_size /\ planet_size < 0.085) /\
  (size_class (classify_size planet_size) = "Neptune-sized"
   <-> 0.085 <= planet_size).
Proof.
  intros Hlo Hhi. unfold classify_size.
  destruct (Qltb planet_size 0.04) eqn:E1;
    [apply Qltb_lt in E1|apply Qltb_ge in E1].
  { cbn. repeat split; try done; intros; exfalso; lra. }
  destruct (Qltb planet_size 0.085) eqn:E2;
    [apply Qltb_lt in E2|apply Qltb_ge in E2].
  { cbn. repeat split; try done; intros; exfalso; lra. }
  destruct (Qltb planet_size 0.1) eqn:E3;
    [apply Qltb_lt in E3|apply Qltb_ge in E3; exfalso; lra].
  cbn. repeat split; try done; intros; exfalso; lra.
Qed.

Lemma slider_sizes_are_never_jupiter_witness :
  size_class (classify_size 0.09) <> "Jupiter-sized" /\
  (size_class (classify_size 0.09) = "Earth-sized" <-> 0.09 < 0.04) /\
  (size_class (classify_size 0.09) = "Super-Earth"
   <-> 0.04 <= 0.09 /\ 0.09 < 0.085) /\
  (size_class (classify_size 0.09) = "Neptune-sized" <-> 0.085 <= 0.09).
Proof. apply (slider_sizes_are_never_jupiter 0.09); discriminate. Defined.

(** Over the range of the period slider, 220 to 350 days, the
    temperature class is never "VERY HOT", and the planet is called
    possibly habitable exactly for periods from 250 up to 300 days. *)
Theorem slider_periods_are_never_very_hot (orbital_period : Q) :
  220 <= orbital_period -> orbital_period <= 350 ->
  temp_class (classify_temperature orbital_period) <> "VERY HOT" /\
  (habitable (classify_temperature orbital_period) = "Possibly habitable!"
   <-> 250 <= orbital_period /\ orbital_period < 300) /\
  (temp_class (classify_temperature orbital_period) = "COLD"
   <-> 300 <= orbital_period).
Proof.
  intros Hlo Hhi. unfold classify_temperature.
  destruct (Qltb orbital_period 200) eqn:E1;
    [apply Qltb_lt in E1; exfalso; lra|apply Qltb_ge in E1].
  destruct (Qltb orbital_period 250) eqn:E2;
    [apply Qltb_lt in E2|apply Qltb_ge in E2].
  { cbn. repeat split; try done; intros; exfalso; lra. }
  destruct (Qltb orbital_period 300) eqn:E3;
    [apply Qltb_lt in E3|apply Qltb_ge in E3].
  { cbn. repeat split; try done; intros; exfalso; lra. }
  cbn. repeat split; try done; intros; exfalso; lra.
Qed.

Lemma slider_periods_are_never_very_hot_witness :
  temp_class (classify_temperature 290) <> "VERY HOT" /\
  (habitable (classify_temperature 290) = "Possibly habitable!"
   <-> 250 <= 290 /\ 290 < 300) /\
  (temp_class (classify_temperature 290) = "COLD" <-> 300 <= 290).
Proof. apply (slider_periods_are_never_very_hot 290); discriminate. Defined.

Lemma all_finite (l : list float64) :
  Forall (fun f => exists a, f = Fin a) l -> exists qs, l = Fin <$> qs.
Proof.
  induction 1 as [|x l [a ->] _ [qs ->]]; [by exists []|]. by exists (a :: qs).
Qed.

Lemma fit_quality_self (x : list Q) :
  x <> [] ->
  fit_quality (Fin <$> x) (Fin <$> x)
  = Returned {| rms_error := RFin 0; score := RFin 100 |}.
Proof.
  intros Hx. destruct (self_residuals x) as [Hsub Hall].
  rewrite (fit_quality_residuals _ _ _ Hsub).
  rewrite (uniform_residual_rms _ 0%Q); [|by destruct x|done].
  change (Qabs 0) with 0%Q. rewrite RMicromega.Q2R_0. simpl.
  by rewrite score_of_rms_zero.
Qed.

(** Round trip: when the observed flux is what the model produces for
    the chosen sliders, the callback reports a perfect fit, error 0 and
    score 100, for any non-empty time array and any slider values. *)
Theorem model_fits_itself (time : list float64)
    (planet_size orbital_period orbital_speed : Q) :
  time <> [] ->
  exists flux,
    Kepler._transit_model time planet_size orbital_period orbital_speed
    = Returned flux /\
    update_fit time flux planet_size orbital_period orbital_speed
    = Returned {| rms_error := RFin 0; score := RFin 100 |}.
Proof.
  intros Ht. eexists. split; [apply transit_model_sample|].
  unfold update_fit. rewrite transit_model_sample. unfold mbind, outcome_bind.
  assert (Hfin : Forall (fun f => exists a, f = Fin a)
                   (sample_flux planet_size orbital_period orbital_speed <$> time)).
  { apply Forall_fmap, Forall_forall. intros t _. simpl.
    destruct (within_finite _ _ _
                (sample_flux_within planet_size orbital_period orbital_speed t))
      as (a & -> & _). by exists a. }
  destruct (all_finite _ Hfin) as [qs Hqs]. rewrite Hqs.
  apply fit_quality_self. intros ->. destruct time; done.
Qed.

Lemma model_fits_itself_witness :
  exists flux,
    Kepler._transit_model [Fin 0; Fin 2.025] 0.1 4.05 10 = Returned flux /\
    update_fit [Fin 0; Fin 2.025] flux 0.1 4.05 10
    = Returned {| rms_error := RFin 0; score := RFin 100 |}.
Proof. apply (model_fits_itself [Fin 0; Fin 2.025] 0.1 4.05 10). discriminate. Defined.
End ConsoleHints.

(** ** Activity 2: detection, hints and the highlighted transits *)

(** Case analysis on tests that have been turned into propositions. *)
Ltac bool_facts :=
  repeat match goal with
    | H : true = true <-> ?P |- _ =>
        let F := fresh "F" in
        assert (F : P) by (apply H; reflexivity); clear H
    | H : false = true <-> ?P |- _ =>
        let F := fresh "F" in
        assert (F : ~ P) by (intros HP; apply H in HP; discriminate HP); clear H
    end.

Ltac window_goal :=
  repeat match goal with
    | |- _ /\ _ => split
    | |- _ <-> _ => split
    | |- _ -> _ => intro
    end;
  first [ reflexivity
        | match goal with H : _ = _ |- _ => discriminate H end
        | lra
        | exfalso; lra ].

Section DetectiveFacts.
Import Detective DetectiveTools.
Local Open Scope Q_scope.

Lemma near_iff (p c tol : Q) :
  Qltb (Qabs (p - c)) tol = true <-> c - tol < p /\ p < c + tol.
Proof.
  rewrite Qltb_lt, Qabs_Qlt_condition. split; intros [H1 H2]; split; lra.
Qed.

Lemma far_iff (p c tol : Q) :
  Qle_bool tol (Qabs (p - c)) = true <-> p <= c - tol \/ c + tol <= p.
Proof.
  rewrite Qle_bool_iff. split.
  - intros H. destruct (Qlt_le_dec (c - tol) p) as [Hlo|Hlo]; [|by left].
    destruct (Qlt_le_dec p (c + tol)) as [Hhi|Hhi]; [|by right].
    assert (Hn : Qabs (p - c) < tol) by (apply Qabs_Qlt_condition; lra).
    exfalso. lra.
  - intros H. apply Qnot_lt_le. intros Hn%Qabs_Qlt_condition. lra.
Qed.

Lemma hint_close_iff (p : Q) :
  Qltb 1.4 p && Qltb p 1.6 && Qle_bool 0.05 (Qabs (p - 1.51)) = true
  <-> (1.4 < p /\ p <= 1.46) \/ (1.56 <= p /\ p < 1.6).
Proof. rewrite !andb_true_iff, !Qltb_lt, far_iff. lra. Qed.

Lemma hint_warm_iff (p : Q) :
  Qltb 2.3 p && Qltb p 2.5 && Qle_bool 0.05 (Qabs (p - 2.42)) = true
  <-> (2.3 < p /\ p <= 2.37) \/ (2.47 <= p /\ p < 2.5).
Proof. rewrite !andb_true_iff, !Qltb_lt, far_iff. lra. Qed.

(** A fold is reported as a detection of planet b for the periods
    within 0.05 days of 1.51, of planet c for those within 0.05 days of
    2.42, and as no detection for all others.  The code rounds the
    subtraction and the three literals, so each end of a window is
    stated with a margin of 1e-9 days, inside which a period falls on
    the side the rounding puts it.  The two windows do not overlap, so
    the order of the two tests does not matter. *)
Theorem detection_windows (period : Q) :
  (1.460000001 <= period /\ period <= 1.559999999 ->
   transit_label period = "TRAPPIST-1b transit!") /\
  (transit_label period = "TRAPPIST-1b transit!" ->
   1.459999999 <= period /\ period <= 1.560000001) /\
  (2.370000001 <= period /\ period <= 2.469999999 ->
   transit_label period = "TRAPPIST-1c transit!") /\
  (transit_label period = "TRAPPIST-1c transit!" ->
   2.369999999 <= period /\ period <= 2.470000001) /\
  (period <= 1.459999999 \/
   (1.560000001 <= period /\ period <= 2.369999999) \/
   2.470000001 <= period ->
   transit_label period = "Expected transit location").
Proof.
  unfold transit_label.
  pose proof (near_iff period 1.51 0.05) as Hb.
  pose proof (near_iff period 2.42 0.05) as Hc.
  destruct (Qltb (Qabs (period - 1.51)) 0.05),
    (Qltb (Qabs (period - 2.42)) 0.05); bool_facts; window_goal.
Qed.

Lemma detection_windows_witness :
  transit_label 1.5 = "TRAPPIST-1b transit!" /\
  transit_label 2.4 = "TRAPPIST-1c transit!" /\
  transit_label 3 = "Expected transit location".
Proof.
  split; [|split].
  - destruct (detection_windows 1.5) as (H & _). apply H. split; lra.
  - destruct (detection_windows 2.4) as (_ & _ & H & _). apply H. split; lra.
  - destruct (detection_windows 3) as (_ & _ & _ & _ & H). apply H.
    right. right. lra.
Defined.

(** A hint is printed only when no transit was reported.  The "close"
    hint is printed between 1.4 and 1.6 days outside the window of
    planet b, the "warm" hint between 2.3 and 2.5 days outside the
    window of planet c; the ends next to a window carry the margin of
    1e-9 days of [detection_windows]. *)
Theorem hints_only_without_detection (period : Q) :
  (hint period = None \/ transit_label period = "Expected transit location") /\
  ((1.4 < period /\ period <= 1.459999999) \/
   (1.560000001 <= period /\ period < 1.6) ->
   hint period = Some "💡 Hint: You're close! Try adjusting slightly...") /\
  (hint period = Some "💡 Hint: You're close! Try adjusting slightly..." ->
   (1.4 < period /\ period <= 1.460000001) \/
   (1.559999999 <= period /\ period < 1.6)) /\
  ((2.3 < period /\ period <= 2.369999999) \/
   (2.470000001 <= period /\ period < 2.5) ->
   hint period = Some "💡 Hint: Getting warm! Fine-tune your period...") /\
  (hint period = Some "💡 Hint: Getting warm! Fine-tune your period..." ->
   (2.3 < period /\ period <= 2.370000001) \/
   (2.469999999 <= period /\ period < 2.5)).
Proof.
  unfold hint, transit_label.
  pose proof (near_iff period 1.51 0.05) as Hb.
  pose proof (near_iff period 2.42 0.05) as Hc.
  pose proof (hint_close_iff period) as Hclose.
  pose proof (hint_warm_iff period) as Hwarm.
  destruct (Qltb (Qabs (period - 1.51)) 0.05),
    (Qltb (Qabs (period - 2.42)) 0.05),
    (Qltb 1.4 period && Qltb period 1.6
     && Qle_bool 0.05 (Qabs (period - 1.51))),
    (Qltb 2.3 period && Qltb period 2.5
     && Qle_bool 0.05 (Qabs (period - 2.42)));
    bool_facts;
    (split; [first [by left | by right | exfalso; lra]|]); window_goal.
Qed.

Lemma hints_only_without_detection_witness :
  hint 1.45 = Some "💡 Hint: You're close! Try adjusting slightly..." /\
  hint 2.48 = Some "💡 Hint: Getting warm! Fine-tune your period...".
Proof.
  split.
  - destruct (hints_only_without_detection 1.45) as (_ & H & _). apply H.
    left. split; lra.
  - destruct (hints_only_without_detection 2.48) as (_ & _ & _ & H & _).
    apply H. right. split; lra.
Defined.
End DetectiveFacts.

Section Step3Facts.
Import PrimFloat Binary64.
Local Open Scope float_scope.
Local Set Warnings "-inexact-float".

(** The mask of step 3, one sample at a time. *)
Lemma step3_mask (t : list double) :
  zip_with andb ((fun p => 0.45 <? p) <$> phase_fold t 1.51)
                ((fun p => p <? 0.55) <$> phase_fold t 1.51)
  = (fun x => (0.45 <? phase_at 1.51 x) && (phase_at 1.51 x <? 0.55)) <$> t.
Proof.
  unfold phase_fold.
  induction t as [|x t IH]; [done|]. cbn. f_equal. exact IH.
Qed.

(** Indexing two arrays of one length with the same mask keeps their
    entries paired. *)
Lemma mask_select_pairs (P : double -> bool) (t f : list double) :
  length t = length f ->
  zip (mask_select t (P <$> t)) (mask_select f (P <$> t))
  = List.filter (fun xy => P (fst xy)) (zip t f) /\
  length (mask_select t (P <$> t)) = count_true (P <$> t) /\
  length (mask_select f (P <$> t)) = count_true (P <$> t).
Proof.
  unfold count_true. revert f.
  induction t as [|x t IH]; intros [|y f] Hl; try done.
  injection Hl as Hl. destruct (IH f Hl) as (Hz & Ht & Hf).
  cbn. destruct (P x); cbn; rewrite ?Hz, ?Ht, ?Hf; done.
Qed.

(** Step 3 on loaded data of equal lengths draws in red exactly the
    samples whose computed phase at 1.51 days is above 0.45 and below
    0.55: the highlighted times and flux values are, pair by pair and in
    order, the loaded pairs that pass both tests, and the number
    reported is the number of highlighted samples. *)
Theorem step3_highlights_the_window (t f : list double) :
  length t = length f ->
  exists ht hf,
    step3_remove_planet {| time := Some t; flux := Some f |}
    = Highlighted ht hf (length ht) /\
    length hf = length ht /\
    zip ht hf
    = List.filter
        (fun xy => (0.45 <? phase_at 1.51 (fst xy))
                   && (phase_at 1.51 (fst xy) <? 0.55))
        (zip t f).
Proof.
  intros Hl. unfold step3_remove_planet. cbn [time flux].
  rewrite decide_True by done. cbv zeta. rewrite step3_mask.
  set (P := fun x => (0.45 <? phase_at 1.51 x) && (phase_at 1.51 x <? 0.55)).
  destruct (mask_select_pairs P t f Hl) as (Hz & Ht & Hf).
  eexists _, _. split; [by rewrite Ht|].
  split; [by rewrite Ht, Hf|exact Hz].
Qed.

(** An instance: the sample at 3.8505 days, whose phase is computed as
    0.5499999999999998, is highlighted. *)
Lemma step3_highlights_the_window_witness :
  step3_remove_planet
    {| time := Some [0; 0.755; 3.8505; 4.53];
       flux := Some [1; 0.99; 0.98; 1] |}
  = Highlighted [0.755; 3.8505] [0.99; 0.98] 2 /\
  exists ht hf,
    step3_remove_planet
      {| time := Some [0; 0.755; 3.8505; 4.53];
         flux := Some [1; 0.99; 0.98; 1] |}
    = Highlighted ht hf (length ht) /\
    length hf = length ht /\
    zip ht hf
    = List.filter
        (fun xy => (0.45 <? phase_at 1.51 (fst xy))
                   && (phase_at 1.51 (fst xy) <? 0.55))
        (zip [0; 0.755; 3.8505; 4.53] [1; 0.99; 0.98; 1]).
Proof.
  split; [vm_compute; reflexivity|].
  apply (step3_highlights_the_window
           [0; 0.755; 3.8505; 4.53] [1; 0.99; 0.98; 1]).
  reflexivity.
Defined.
End Step3Facts.

(** ** Activity 3: the score, the labels and the planet table *)

Section HabitableShape.
Import Habitable HabitableTools.
Local Open Scope Q_scope.

Ltac qconst :=
  unfold Qdiv in *;
  change (/ 65) with (1 # 65) in *; change (/ 150) with (1 # 150) in *.

(** The three bands, as propositions. *)
Lemma band_score_cases (temp : Q) :
  (-20 <= temp /\ temp <= 50 /\ band_score temp = 1.0 - Qabs (temp - 15) / 65) \/
  (-50 <= temp /\ temp < -20 /\ band_score temp = 0.6 - (Qabs temp - 20) / 150) \/
  ((temp < -50 \/ 50 < temp) /\ band_score temp = 0.3).
Proof.
  unfold band_score.
  destruct (Qle_bool (-20) temp) eqn:E1, (Qle_bool temp 50) eqn:E2;
    cbn [andb];
    try (apply Qle_bool_iff in E1); try (apply Qle_bool_iff in E2).
  - by left.
  - assert (N2 : 50 < temp).
    { apply Qnot_le_lt. intros H%Qle_bool_iff. congruence. }
    assert (Qle_bool (-50) temp = true) as -> by (apply Qle_bool_iff; lra).
    assert (Qltb temp (-20) = false) as -> by (apply Qltb_ge; lra).
    right. right. split; [by right|done].
  - assert (N1 : temp < -20).
    { apply Qnot_le_lt. intros H%Qle_bool_iff. congruence. }
    assert (Qltb temp (-20) = true) as -> by (by apply Qltb_lt).
    destruct (Qle_bool (-50) temp) eqn:E3; cbn [andb].
    + apply Qle_bool_iff in E3. right. by left.
    + right. right. split; [left|done].
      apply Qnot_le_lt. intros H%Qle_bool_iff. congruence.
  - exfalso.
    assert (N1 : temp < -20).
    { apply Qnot_le_lt. intros H%Qle_bool_iff. congruence. }
    assert (N2 : 50 < temp).
    { apply Qnot_le_lt. intros H%Qle_bool_iff. congruence. }
    lra.
Qed.

(** The banded score is always within the clamp's bounds. *)
Lemma band_score_range (temp : Q) :
  0.3 <= band_score temp /\ band_score temp <= 1.
Proof.
  destruct (band_score_cases temp)
    as [(H1 & H2 & ->)|[(H1 & H2 & ->)|(_ & ->)]]; qconst.
  - apply (Qabs_case (temp - 15)); intros; lra.
  - apply (Qabs_case temp); intros; lra.
  - lra.
Qed.

Lemma clamp_id (s : Q) : 0.3 <= s -> s <= 1 -> py_max 0.3 (py_min 1.0 s) == s.
Proof.
  intros Hlo Hhi. unfold py_max, py_min.
  destruct (Qltb s 1.0) eqn:E1.
  - destruct (Qltb 0.3 s) eqn:E2; [reflexivity|]. apply Qltb_ge in E2. lra.
  - apply Qltb_ge in E1.
    destruct (Qltb 0.3 1.0) eqn:E2; [lra|]. apply Qltb_ge in E2. lra.
Qed.

Lemma score_is_band_score (temp : Q) :
  _calculate_habitability_score temp == band_score temp.
Proof.
  destruct (band_score_range temp) as [Hlo Hhi].
  exact (clamp_id (band_score temp) Hlo Hhi).
Qed.

(** The final clamp never acts: for every temperature the banded score
    is already between 0.3 and 1, and is the value returned. *)
Theorem clamp_never_acts (temp : Q) :
  0.3 <= band_score temp /\ band_score temp <= 1 /\
  _calculate_habitability_score temp == band_score temp.
Proof.
  destruct (band_score_range temp) as [Hlo Hhi].
  split; [done|]. split; [done|]. apply score_is_band_score.
Qed.

(** The score is the floor value 0.3 exactly outside [-50, 50] degrees;
    inside it is above 0.39.  Its least value inside is 0.4, at -50
    degrees, which the code computes as 0.39999999999999997. *)
Theorem floor_score_iff_out_of_band (temp : Q) :
  (_calculate_habitability_score temp == 0.3 <-> temp < -50 \/ 50 < temp) /\
  (0.39 <= _calculate_habitability_score temp <-> -50 <= temp /\ temp <= 50).
Proof.
  rewrite (score_is_band_score temp).
  destruct (band_score_cases temp)
    as [(H1 & H2 & ->)|[(H1 & H2 & ->)|(H & ->)]]; qconst.
  - apply (Qabs_case (temp - 15)); intros; lra.
  - apply (Qabs_case temp); intros; lra.
  - lra.
Qed.

(** The score reaches 1 at 15 degrees, and a temperature at least 1e-9
    degrees away from 15 scores strictly less than 1.  Closer to 15
    than that, the code's subtraction from 1.0 can round back to 1.0. *)
Theorem score_peaks_only_at_15 (temp : Q) :
  _calculate_habitability_score 15 == 1 /\
  (0.000000001 <= Qabs (temp - 15) -> _calculate_habitability_score temp < 1).
Proof.
  split; [reflexivity|].
  rewrite (score_is_band_score temp).
  destruct (band_score_cases temp)
    as [(H1 & H2 & ->)|[(H1 & H2 & ->)|(H & ->)]]; qconst.
  - apply (Qabs_case (temp - 15)); intros; lra.
  - apply (Qabs_case temp); intros; lra.
  - lra.
Qed.

Lemma score_peaks_only_at_15_witness :
  _calculate_habitability_score 15 == 1 /\
  _calculate_habitability_score 16 < 1 /\
  _calculate_habitability_score (-30) < 1.
Proof.
  split; [apply (score_peaks_only_at_15 15)|]. split.
  - apply (score_peaks_only_at_15 16). apply Qabs_case; intros; lra.
  - apply (score_peaks_only_at_15 (-30)). apply Qabs_case; intros; lra.
Defined.

(** Inside the liquid-water band the score only depends on the distance
    from 15 degrees and never increases with it. *)
Theorem score_falls_with_distance_in_band (t1 t2 : Q) :
  -20 <= t1 -> t1 <= 50 -> -20 <= t2 -> t2 <= 50 ->
  Qabs (t1 - 15) <= Qabs (t2 - 15) ->
  _calculate_habitability_score t2 <= _calculate_habitability_score t1.
Proof.
  intros A1 A2 B1 B2 Hd.
  rewrite (score_is_band_score t1), (score_is_band_score t2).
  destruct (band_score_cases t1) as [(_ & _ & ->)|[(_ & H & _)|([H|H] & _)]];
    try (exfalso; lra).
  destruct (band_score_cases t2) as [(_ & _ & ->)|[(_ & H & _)|([H|H] & _)]];
    try (exfalso; lra).
  qconst. lra.
Qed.

Lemma score_falls_with_distance_in_band_witness :
  _calculate_habitability_score 40 <= _calculate_habitability_score (-5).
Proof.
  apply (score_falls_with_distance_in_band (-5) 40); discriminate.
Defined.

(** The dashboard label by temperature: "Excellent" between 2 and 28
    degrees, "Good" from -11 to 2 and from 28 to 41, "Possible" below
    -11 and above 41, and so for every temperature of the marginal band
    below -20.  The score is compared with 0.8 and 0.6 after a rounded
    subtraction and division, so each of the four ends is stated with a
    margin of 1e-9 degrees, inside which a temperature gets the label
    the rounding gives it. *)
Theorem dashboard_label_by_temperature (temp : Q) :
  (2.000000001 <= temp /\ temp <= 27.999999999 ->
   dashboard_label (_calculate_habitability_score temp) = "Excellent") /\
  (dashboard_label (_calculate_habitability_score temp) = "Excellent" ->
   1.999999999 <= temp /\ temp <= 28.000000001) /\
  ((-10.999999999 <= temp /\ temp <= 1.999999999) \/
   (28.000000001 <= temp /\ temp <= 40.999999999) ->
   dashboard_label (_calculate_habitability_score temp) = "Good") /\
  (dashboard_label (_calculate_habitability_score temp) = "Good" ->
   (-11.000000001 <= temp /\ temp <= 2.000000001) \/
   (27.999999999 <= temp /\ temp <= 41.000000001)) /\
  (temp <= -11.000000001 \/ 41.000000001 <= temp ->
   dashboard_label (_calculate_habitability_score temp) = "Possible").
Proof.
  unfold dashboard_label.
  rewrite (Qltb_proper 0.8 0.8 _ _ (Qeq_refl _) (score_is_band_score temp)).
  rewrite (Qltb_proper 0.6 0.6 _ _ (Qeq_refl _) (score_is_band_score temp)).
  pose proof (Qltb_lt 0.8 (band_score temp)) as H8.
  pose proof (Qltb_lt 0.6 (band_score temp)) as H6.
  assert (F8 : 0.8 < band_score temp <-> 2 < temp /\ temp < 28).
  { destruct (band_score_cases temp)
      as [(H1 & H2 & ->)|[(H1 & H2 & ->)|(H & ->)]]; qconst.
    - apply (Qabs_case (temp - 15)); intros; lra.
    - apply (Qabs_case temp); intros; lra.
    - lra. }
  assert (F6 : 0.6 < band_score temp <-> -11 < temp /\ temp < 41).
  { destruct (band_score_cases temp)
      as [(H1 & H2 & ->)|[(H1 & H2 & ->)|(H & ->)]]; qconst.
    - apply (Qabs_case (temp - 15)); intros; lra.
    - apply (Qabs_case temp); intros; lra.
    - lra. }
  rewrite F8 in H8. rewrite F6 in H6.
  destruct (Qltb 0.8 _), (Qltb 0.6 _); bool_facts; window_goal.
Qed.

Lemma dashboard_label_by_temperature_witness :
  dashboard_label (_calculate_habitability_score 15) = "Excellent" /\
  dashboard_label (_calculate_habitability_score 30) = "Good" /\
  dashboard_label (_calculate_habitability_score (-22)) = "Possible".
Proof.
  split; [|split].
  - destruct (dashboard_label_by_temperature 15) as (H & _). apply H.
    split; lra.
  - destruct (dashboard_label_by_temperature 30) as (_ & _ & H & _). apply H.
    right. split; lra.
  - destruct (dashboard_label_by_temperature (-22)) as (_ & _ & _ & _ & H).
    apply H. left. lra.
Defined.
End HabitableShape.

Section PlanetTable.
Import Habitable HabitableTools.
Local Open Scope Q_scope.

Ltac table_cases H :=
  rewrite ?elem_of_cons, ?elem_of_nil in H;
  repeat match type of H with
    | _ \/ _ => destruct H as [H|H]
    end;
  try contradiction; injection H as -> ->.

(** Two planets of the table within 0.45 days of one period are the
    same planet: the periods are at least 0.91 days apart. *)
Lemma table_match_unique (tol p : Q) (n n' : string) (d d' : planet) :
  tol <= 0.45 ->
  (n, d) ∈ all_planets -> Qabs (period d - p) < tol ->
  (n', d') ∈ all_planets -> Qabs (period d' - p) < tol ->
  (n', d') = (n, d).
Proof.
  intros Htol Hin H Hin' H'.
  apply Qabs_Qlt_condition in H, H'. unfold all_planets in Hin, Hin'.
  table_cases Hin; table_cases Hin'; cbn [period] in *;
    first [reflexivity | exfalso; lra].
Qed.

Lemma known_planet_spec (tol p : Q) (n : string) (d : planet) :
  tol <= 0.45 ->
  (known_planet tol p = Some (n, d)
   <-> (n, d) ∈ all_planets /\ Qabs (period d - p) < tol).
Proof.
  intros Htol. unfold known_planet. split.
  - intros [Hin Hp]%find_some. split; [by apply list_elem_of_In|].
    by apply Qltb_lt in Hp.
  - intros [Hin Hp].
    destruct (find _ all_planets) as [[n' d']|] eqn:Hfind.
    + apply find_some in Hfind as [Hin' Hp']. apply Qltb_lt in Hp'.
      apply list_elem_of_In in Hin'. f_equal.
      by apply (table_match_unique tol p n n' d d').
    + exfalso. apply list_elem_of_In in Hin.
      pose proof (find_none _ _ Hfind _ Hin) as Hn. cbn [snd] in Hn.
      apply Qltb_ge in Hn. lra.
Qed.

(** The table lookup of [fold_at_period] (within 0.05 days) and of
    [find_habitable_periods] (within 0.01 days) reports a planet when
    that planet's period is within the tolerance, and reports no planet
    whose period is not: what the loop finds does not depend on the
    order of the table, because no two planets can match at once.  The
    code rounds the subtraction and the literals, so the tolerance is
    stated with a margin of 1e-9 days on either side. *)
Theorem planet_match_iff (p : Q) (name : string) (data : planet) :
  ((name, data) ∈ all_planets /\ Qabs (period data - p) <= 0.049999999 ->
   fold_match p = Some (name, data)) /\
  (fold_match p = Some (name, data) ->
   (name, data) ∈ all_planets /\ Qabs (period data - p) <= 0.050000001) /\
  ((name, data) ∈ all_planets /\ Qabs (period data - p) <= 0.009999999 ->
   known_planet 0.01 p = Some (name, data)) /\
  (known_planet 0.01 p = Some (name, data) ->
   (name, data) ∈ all_planets /\ Qabs (period data - p) <= 0.010000001).
Proof.
  pose proof (known_planet_spec 0.05 p name data) as H5.
  pose proof (known_planet_spec 0.01 p name data) as H1.
  unfold fold_match.
  split; [|split; [|split]].
  - intros [Hin Hd]. apply H5; [discriminate|]. split; [done|lra].
  - intros [Hin Hd]%H5; [|discriminate]. split; [done|lra].
  - intros [Hin Hd]. apply H1; [discriminate|]. split; [done|lra].
  - intros [Hin Hd]%H1; [|discriminate]. split; [done|lra].
Qed.

Lemma planet_match_iff_witness :
  fold_match 4.02
  = Some ("d", {| period := 4.05; type := "habitable"; temp_c := 15;
                  emoji := Some "🌍" |}) /\
  known_planet 0.01 6.095
  = Some ("e", {| period := 6.10; type := "habitable"; temp_c := -22;
                  emoji := Some "❄️" |}).
Proof.
  split.
  - destruct (planet_match_iff 4.02 "d"
                {| period := 4.05; type := "habitable"; temp_c := 15;
                   emoji := Some "🌍" |}) as (H & _).
    apply H. split; [|cbn [period]; apply Qabs_Qle_condition; lra].
    unfold all_planets. rewrite !elem_of_cons. tauto.
  - destruct (planet_match_iff 6.095 "e"
                {| period := 6.10; type := "habitable"; temp_c := -22;
                   emoji := Some "❄️" |}) as (_ & _ & H & _).
    apply H. split; [|cbn [period]; apply Qabs_Qle_condition; lra].
    unfold all_planets. rewrite !elem_of_cons. tauto.
Defined.

Lemma listed_period_is_known (p : Q) :
  existsb (Qeq_bool p) ((fun kv => period (snd kv)) <$> all_planets) = true ->
  known_planet 0.01 p <> None.
Proof.
  intros (x & Hin & Hx)%existsb_exists Hnone.
  apply Qeq_bool_iff in Hx.
  apply list_elem_of_In, list_elem_of_fmap in Hin as ([n d] & -> & Hin).
  apply list_elem_of_In in Hin.
  pose proof (find_none _ _ Hnone _ Hin) as Hn. cbn [snd] in Hn.
  apply Qltb_ge in Hn.
  assert (E : Qabs (period d - p) == 0).
  { cbn [snd] in Hx. rewrite (Qabs_wd _ 0); [done|]. lra. }
  lra.
Qed.

(** The text [find_habitable_periods] prints next to a period is never
    blank: it is the "Unknown" mark exactly when no planet of the table
    is within 0.01 days, and names a planet otherwise. *)
Theorem period_source_is_never_blank (p : Q) :
  period_source p <> "" /\
  (period_source p = "❌ Unknown" <-> known_planet 0.01 p = None).
Proof.
  unfold period_source. cbv zeta.
  pose proof (listed_period_is_known p) as Hlisted.
  destruct (known_planet 0.01 p) as [[n d]|] eqn:Hk.
  - split.
    + intros H. apply (f_equal String.length) in H.
      rewrite !string_length_app in H. cbn in H. lia.
    + split; [|done]. intros H.
      apply (f_equal (String.get 1)) in H.
      rewrite <- (String.append_correct1 "✅ Planet " _ 1) in H; [|cbn; lia].
      discriminate H.
  - destruct (existsb _ _); [exfalso; by apply Hlisted|].
    split; [done|]. split; done.
Qed.

(** The habitable planets are d, e and f, in that order, one per bar
    colour of the dashboard; their scores are 1, 0.6 - 2/150 and 0.3, so
    the dashboard labels them Excellent, Possible and Possible: "Good"
    is not shown for any planet of the table. *)
Theorem dashboard_of_the_table :
  fst <$> habitable_planets = ["d"; "e"; "f"] /\
  Forall2 (fun ns q => snd ns == q) dashboard_scores [1; 0.6 - 2 / 150; 0.3] /\
  (fun ns => dashboard_label (snd ns)) <$> dashboard_scores
  = ["Excellent"; "Possible"; "Possible"].
Proof.
  split; [by vm_compute|]. split; [|by vm_compute].
  repeat constructor; by vm_compute.
Qed.
End PlanetTable.

(** ** Arrays in the store: successive calls *)

Section SuccessiveCalls.
Implicit Types (σ : gmap Ref.loc (list float64)).

Lemma fresh_not_allocated σ (l : Ref.loc) (a : list float64) :
  σ !! l = Some a -> l <> fresh (dom σ).
Proof. intros Hl ->. rewrite fresh_loc_unused in Hl. done. Qed.

(** Two runs of the model on the same time array, with any two settings
    of the sliders, return two different new objects, neither of them
    the time array; each holds what the model computes for its
    settings, the second run leaves the result of the first as it was,
    and the time array is unchanged throughout. *)
Theorem successive_models_do_not_alias σ (time : Ref.loc) (t : list float64)
    (ps1 p1 w1 ps2 p2 w2 : Q) :
  σ !! time = Some t ->
  exists l1 l2 σ' flux1 flux2,
    (l1 ← Ref._transit_model time ps1 p1 w1;
     l2 ← Ref._transit_model time ps2 p2 w2;
     mret (l1, l2)) σ = Returned ((l1, l2), σ') /\
    l1 <> l2 /\ l1 <> time /\ l2 <> time /\
    Kepler._transit_model t ps1 p1 w1 = Returned flux1 /\
    Kepler._transit_model t ps2 p2 w2 = Returned flux2 /\
    σ' !! l1 = Some flux1 /\ σ' !! l2 = Some flux2 /\ σ' !! time = Some t.
Proof.
  intros Ht.
  set (l1 := fresh (dom σ)).
  set (σ1 := <[l1 := sample_flux ps1 p1 w1 <$> t]> σ).
  set (l2 := fresh (dom σ1)).
  assert (H1t : l1 <> time).
  { intros E. pose proof (fresh_not_allocated _ _ _ Ht). by subst l1. }
  assert (Ht1 : σ1 !! time = Some t).
  { unfold σ1. by rewrite lookup_insert_ne. }
  assert (H11 : σ1 !! l1 = Some (sample_flux ps1 p1 w1 <$> t)).
  { unfold σ1. by rewrite lookup_insert_eq. }
  assert (H2t : l2 <> time).
  { intros E. pose proof (fresh_not_allocated _ _ _ Ht1). by subst l2. }
  assert (H21 : l1 <> l2).
  { intros E. pose proof (fresh_not_allocated _ _ _ H11). by subst l2. }
  exists l1, l2, (<[l2 := sample_flux ps2 p2 w2 <$> t]> σ1),
    (sample_flux ps1 p1 w1 <$> t), (sample_flux ps2 p2 w2 <$> t).
  split.
  { unfold mbind, Ref.py_bind.
    rewrite (ref_transit_model_run _ _ _ _ _ _ Ht). fold l1 σ1.
    rewrite (ref_transit_model_run _ _ _ _ _ _ Ht1). done. }
  split; [done|]. split; [done|]. split; [done|].
  split; [apply transit_model_sample|]. split; [apply transit_model_sample|].
  split; [by rewrite lookup_insert_ne|].
  split; [by rewrite lookup_insert_eq|].
  by rewrite lookup_insert_ne.
Qed.

Lemma successive_models_do_not_alias_witness :
  exists l1 l2 σ' flux1 flux2,
    (l1 ← Ref._transit_model 1%positive 0.1 4.05 10;
     l2 ← Ref._transit_model 1%positive 0.05 4.05 10;
     mret (l1, l2)) {[ 1%positive := [Fin 0; Fin 2.025] ]}
    = Returned ((l1, l2), σ') /\
    l1 <> l2 /\ l1 <> 1%positive /\ l2 <> 1%positive /\
    Kepler._transit_model [Fin 0; Fin 2.025] 0.1 4.05 10 = Returned flux1 /\
    Kepler._transit_model [Fin 0; Fin 2.025] 0.05 4.05 10 = Returned flux2 /\
    σ' !! l1 = Some flux1 /\ σ' !! l2 = Some flux2 /\
    σ' !! 1%positive = Some [Fin 0; Fin 2.025].
Proof.
  apply (successive_models_do_not_alias
           {[ 1%positive := [Fin 0; Fin 2.025] ]} 1%positive [Fin 0; Fin 2.025]
           0.1 4.05 10 0.05 4.05 10).
  apply lookup_singleton_eq.
Defined.

(** Folding twice at one period gives two different new phase arrays
    with the same contents, those of the value-level fold; the time
    array is read both times and never written. *)
Theorem folding_twice_gives_equal_phases σ (self : Ref.mission)
    (tl fl : Ref.loc) (t f : list float64) (period : Q) :
  Ref.time self = Some tl -> Ref.flux self = Some fl ->
  σ !! tl = Some t ->
  exists ph1 ph2 σ',
    (a ← Ref.fold_at_period self period;
     b ← Ref.fold_at_period self period;
     mret (a, b)) σ = Returned ((Some ph1, Some ph2), σ') /\
    ph1 <> ph2 /\ ph1 <> tl /\ ph2 <> tl /\
    Detective.fold_at_period
      {| Detective.time := Some t; Detective.flux := Some f |} period
    = Some (phase_fold t period) /\
    σ' !! ph1 = Some (phase_fold t period) /\
    σ' !! ph2 = Some (phase_fold t period) /\
    σ' !! tl = Some t.
Proof.
  intros Etl Efl Ht.
  set (ph1 := fresh (dom σ)).
  set (σ1 := <[ph1 := phase_fold t period]> σ).
  set (ph2 := fresh (dom σ1)).
  assert (H1t : ph1 <> tl).
  { intros E. pose proof (fresh_not_allocated _ _ _ Ht). by subst ph1. }
  assert (Ht1 : σ1 !! tl = Some t).
  { unfold σ1. by rewrite lookup_insert_ne. }
  assert (H11 : σ1 !! ph1 = Some (phase_fold t period)).
  { unfold σ1. by rewrite lookup_insert_eq. }
  assert (H2t : ph2 <> tl).
  { intros E. pose proof (fresh_not_allocated _ _ _ Ht1). by subst ph2. }
  assert (H21 : ph1 <> ph2).
  { intros E. pose proof (fresh_not_allocated _ _ _ H11). by subst ph2. }
  assert (Hrun : forall σ0, σ0 !! tl = Some t ->
            Ref.fold_at_period self period σ0
            = Returned (Some (fresh (dom σ0)),
                        <[fresh (dom σ0) := phase_fold t period]> σ0)).
  { intros σ0 H0. unfold Ref.fold_at_period. rewrite Etl, Efl.
    by rewrite (run_load _ _ _ _ H0). }
  exists ph1, ph2, (<[ph2 := phase_fold t period]> σ1).
  split.
  { unfold mbind at 1 2, Ref.py_bind at 1 2.
    rewrite (Hrun _ Ht). fold ph1 σ1. rewrite (Hrun _ Ht1). done. }
  split; [done|]. split; [done|]. split; [done|]. split; [done|].
  split; [by rewrite lookup_insert_ne|].
  split; [by rewrite lookup_insert_eq|].
  by rewrite lookup_insert_ne.
Qed.

Lemma folding_twice_gives_equal_phases_witness :
  exists ph1 ph2 σ',
    (a ← Ref.fold_at_period {| Ref.time := Some 1%positive;
                               Ref.flux := Some 2%positive |} 1.51;
     b ← Ref.fold_at_period {| Ref.time := Some 1%positive;
                               Ref.flux := Some 2%positive |} 1.51;
     mret (a, b)) {[ 1%positive := [Fin 0; Fin 0.755] ]}
    = Returned ((Some ph1, Some ph2), σ') /\
    ph1 <> ph2 /\ ph1 <> 1%positive /\ ph2 <> 1%positive /\
    Detective.fold_at_period
      {| Detective.time := Some [Fin 0; Fin 0.755];
         Detective.flux := Some [Fin 1; Fin 0.99] |} 1.51
    = Some (phase_fold [Fin 0; Fin 0.755] 1.51) /\
    σ' !! ph1 = Some (phase_fold [Fin 0; Fin 0.755] 1.51) /\
    σ' !! ph2 = Some (phase_fold [Fin 0; Fin 0.755] 1.51) /\
    σ' !! 1%positive = Some [Fin 0; Fin 0.755].
Proof.
  apply (folding_twice_gives_equal_phases
           {[ 1%positive := [Fin 0; Fin 0.755] ]}
           {| Ref.time := Some 1%positive; Ref.flux := Some 2%positive |}
           1%positive 2%positive [Fin 0; Fin 0.755] [Fin 1; Fin 0.99] 1.51);
    [reflexivity | reflexivity | apply lookup_singleton_eq].
Defined.
End SuccessiveCalls.
